(** * HX711 load-cell scale: a shallow embedding of the driver and its checks

    The development follows [scale.py] (the bit-banged transport, the
    averaging service and the tare/calibrate engine) and the diagnostic
    checks of [test_raw_gpio.py] and [test_scale.py].

    - Python integers are [Z]; Python floats are IEEE-754 binary64 values,
      represented by [spec_float] with the operations of [SpecFloat] at
      precision 53 and maximal exponent 1024.
    - The GPIO backend and the [time] module are the environment: the data
      line is an oracle giving the level seen by each successive
      [GPIO.input] call, the clock is a millisecond counter advanced by
      [time.sleep], and every pin access is recorded in a trace.
    - [print] and [input] calls are console traffic and are left out. *)

From Stdlib Require Import ZArith List Bool Lia PeanoNat.
From Stdlib Require Import SpecFloat.
Import ListNotations.
Local Open Scope Z_scope.

(** ** Python numbers *)

Module Py.

(** The binary64 format. *)
Definition prec : Z := 53.
Definition emax : Z := 1024.

Definition float := spec_float.

Definition fsub : float -> float -> float := SFsub prec emax.
Definition fdiv : float -> float -> float := SFdiv prec emax.

(** Exceptions the arithmetic of the driver can raise. *)
Inductive exn : Type :=
| ZeroDivisionError
| OverflowError.

(** The outcome of evaluating a piece of code: a value, an exception that
    propagates, or a loop of the model that used up its unrolling bound
    (shown below never to happen). *)
Inductive outcome (A : Type) : Type :=
| Returned (a : A)
| Raised (e : exn)
| OutOfFuel.
Arguments Returned {A} a.
Arguments Raised {A} e.
Arguments OutOfFuel {A}.

Definition obind {A B} (o : outcome A) (k : A -> outcome B) : outcome B :=
  match o with
  | Returned a => k a
  | Raised e => Raised e
  | OutOfFuel => OutOfFuel
  end.

(** A number is an [int] or a [float]. *)
Inductive num : Type :=
| Int (z : Z)
| Float (f : float).

Definition is_finite (f : float) : bool :=
  match f with
  | S754_zero _ | S754_finite _ _ _ => true
  | _ => false
  end.

Definition fis_zero (f : float) : bool :=
  match f with
  | S754_zero _ => true
  | _ => false
  end.

(** [float(z)]: the nearest binary64 value [of_Z z], ties to even; an
    integer too large for the format raises [OverflowError]. *)
Definition of_Z (z : Z) : float := binary_normalize prec emax z 0 false.

Definition float_of_int (z : Z) : outcome float :=
  let f := of_Z z in
  if is_finite f then Returned f else Raised OverflowError.

(** The implicit conversion of an operand of mixed arithmetic. *)
Definition as_float (x : num) : outcome float :=
  match x with
  | Int z => float_of_int z
  | Float f => Returned f
  end.

(** An integer seen as an unrounded binary floating-point number with
    exponent 0; [SFdiv] rounds the exact quotient of two such numbers. *)
Definition int_exact (z : Z) : float :=
  match z with
  | Z0 => S754_zero false
  | Zpos m => S754_finite false m 0
  | Zneg m => S754_finite true m 0
  end.

(** [a / b] on two ints: the correctly rounded quotient, as a float. *)
Definition int_truediv (a b : Z) : outcome float :=
  if b =? 0 then Raised ZeroDivisionError
  else
    let q := fdiv (int_exact a) (int_exact b) in
    if is_finite q then Returned q else Raised OverflowError.

(** [x - y]. *)
Definition sub (x y : num) : outcome num :=
  match x, y with
  | Int a, Int b => Returned (Int (a - b))
  | _, _ =>
      obind (as_float x) (fun fx =>
      obind (as_float y) (fun fy =>
      Returned (Float (fsub fx fy))))
  end.

(** [x / y]. *)
Definition truediv (x y : num) : outcome num :=
  match x, y with
  | Int a, Int b => obind (int_truediv a b) (fun q => Returned (Float q))
  | _, _ =>
      obind (as_float x) (fun fx =>
      obind (as_float y) (fun fy =>
      if fis_zero fy then Raised ZeroDivisionError
      else Returned (Float (fdiv fx fy))))
  end.

(** [x == 0]. *)
Definition is_zero (x : num) : bool :=
  match x with
  | Int z => z =? 0
  | Float f => fis_zero f
  end.

(** [f == z] for a float and an int: Python compares the exact values. *)
Definition float_eq_int (f : float) (z : Z) : bool :=
  match f with
  | S754_zero _ => z =? 0
  | S754_finite s m e =>
      let v := if s then Z.neg m else Z.pos m in
      if 0 <=? e then v * 2 ^ e =? z else v =? z * 2 ^ (- e)
  | _ => false
  end.

(** [x == z] for a number and an int. *)
Definition eq_int (x : num) (z : Z) : bool :=
  match x with
  | Int a => a =? z
  | Float f => float_eq_int f z
  end.

(** Numbers that a binary64 holds exactly: every float, and the ints of
    at most 53 binary digits. *)
Definition fits_double (x : num) : Prop :=
  match x with
  | Int z => Z.abs z < 2 ^ 53
  | Float _ => True
  end.

(** [sum(values)] and [len(values)] on a list of ints. *)
Definition sum (values : list Z) : Z := fold_left Z.add values 0.
Definition len {A} (values : list A) : Z := Z.of_nat (length values).

End Py.

Import Py.

(** ** A small monad interface, shared by the two layers of the driver *)

Class Monad (M : Type -> Type) : Type := {
  ret : forall {A}, A -> M A;
  bind : forall {A B}, M A -> (A -> M B) -> M B
}.

Declare Scope monad_scope.
Delimit Scope monad_scope with monad.
Notation "x <- c ;; k" := (bind c (fun x => k))
  (at level 61, c at next level, right associativity) : monad_scope.
Notation "c ;; k" := (bind c (fun _ => k))
  (at level 61, right associativity) : monad_scope.
Local Open Scope monad_scope.

(** ** The environment: GPIO pins and the wall clock *)

Module Gpio.

(** One access to a pin: [GPIO.output(pin, level)], or [GPIO.input(pin)]
    together with the level it returned. *)
Inductive event : Type :=
| Output (pin level : Z)
| Input (pin level : Z).

Record env : Type := mkEnv {
  data_line : nat -> bool;  (* level found by the k-th [GPIO.input] call *)
  samples : nat;            (* [GPIO.input] calls made so far *)
  clock : Z;                (* wall clock, in milliseconds *)
  trace : list event        (* pin accesses, oldest first *)
}.

(** Code that talks to the pins and the clock. *)
Definition IO (A : Type) : Type := env -> outcome A * env.

#[global] Instance IO_Monad : Monad IO := {
  ret A a := fun e => (Returned a, e);
  bind A B c k := fun e =>
    match c e with
    | (Returned a, e') => k a e'
    | (Raised x, e') => (Raised x, e')
    | (OutOfFuel, e') => (OutOfFuel, e')
    end
}.

(** An arithmetic result enters the monad; an exception propagates. *)
Definition eval {A} (o : outcome A) : IO A := fun e => (o, e).

Definition out_of_fuel {A} : IO A := fun e => (OutOfFuel, e).

Definition GPIO_output (pin level : Z) : IO unit := fun e =>
  (Returned tt,
   mkEnv (data_line e) (samples e) (clock e) (trace e ++ [Output pin level])).

Definition GPIO_input (pin : Z) : IO Z := fun e =>
  let level := Z.b2z (data_line e (samples e)) in
  (Returned level,
   mkEnv (data_line e) (S (samples e)) (clock e) (trace e ++ [Input pin level])).

(** [time.time()], in milliseconds. *)
Definition time_time : IO Z := fun e => (Returned (clock e), e).

(** [time.sleep(ms / 1000)]. *)
Definition time_sleep (ms : Z) : IO unit := fun e =>
  (Returned tt, mkEnv (data_line e) (samples e) (clock e + ms) (trace e)).

End Gpio.

Import Gpio.

(** ** scale.py *)

Module Scale.

Definition DOUT_PIN : Z := 5.
Definition SCK_PIN : Z := 6.

(** The module-level calibration values, [OFFSET = 0] and [SCALE = 1] at
    start-up. *)
Record globals : Type := mkGlobals { OFFSET : num; SCALE : num }.

Definition initial_globals : globals := mkGlobals (Int 0) (Int 1).

(** [is_ready]: [GPIO.input(DOUT_PIN) == 0]. *)
Definition is_ready : IO bool :=
  level <- GPIO_input DOUT_PIN ;;
  ret (level =? 0).

(** The [while] loop of [wait_ready], unrolled at most [S fuel] times;
    [start] and [timeout] are in milliseconds. *)
Fixpoint wait_ready_loop (fuel : nat) (start timeout : Z) : IO bool :=
  ready <- is_ready ;;
  if ready then ret true
  else
    now <- time_time ;;
    if now - start >? timeout then ret false
    else
      time_sleep 1 ;;
      match fuel with
      | O => out_of_fuel
      | S fuel' => wait_ready_loop fuel' start timeout
      end.

(** [wait_ready(timeout)]. Each round of the loop sleeps one millisecond,
    so [timeout + 1] rounds after the first are enough. *)
Definition wait_ready (timeout : Z) : IO bool :=
  start <- time_time ;;
  wait_ready_loop (Z.to_nat (timeout + 1)) start timeout.

(** The default [timeout=2.0] seconds. *)
Definition default_timeout : Z := 2000.

(** The [for _ in range(n)] loop of [read_raw]: one clock pulse, then one
    sample of the data line shifted into [raw_value]. *)
Fixpoint shift_in (n : nat) (raw_value : Z) : IO Z :=
  match n with
  | O => ret raw_value
  | S n' =>
      GPIO_output SCK_PIN 1 ;;
      GPIO_output SCK_PIN 0 ;;
      level <- GPIO_input DOUT_PIN ;;
      shift_in n' (Z.lor (Z.shiftl raw_value 1) level)
  end.

(** The conversion from 24-bit two's complement at the end of [read_raw]:
    [if raw_value & 0x800000: raw_value -= 0x1000000]. *)
Definition to_signed (raw_value : Z) : Z :=
  if Z.land raw_value 0x800000 =? 0 then raw_value
  else raw_value - 0x1000000.

(** [read_raw]: [None] on a timeout, the signed sample otherwise. *)
Definition read_raw : IO (option Z) :=
  ready <- wait_ready default_timeout ;;
  if negb ready then ret None
  else
    raw_value <- shift_in 24 0 ;;
    GPIO_output SCK_PIN 1 ;;
    GPIO_output SCK_PIN 0 ;;
    ret (Some (to_signed raw_value)).

(** The [for _ in range(times)] loop of [read_average]. *)
Fixpoint read_loop (times : nat) (values : list Z) : IO (list Z) :=
  match times with
  | O => ret values
  | S times' =>
      val <- read_raw ;;
      let values' :=
        match val with
        | Some v => values ++ [v]
        | None => values
        end in
      time_sleep 10 ;;
      read_loop times' values'
  end.

(** [read_average(times)]. *)
Definition read_average (times : nat) : IO (option float) :=
  values <- read_loop times [] ;;
  match values with
  | _ :: _ =>
      avg <- eval (int_truediv (sum values) (len values)) ;;
      ret (Some avg)
  | [] => ret None
  end.

(** Code that also reads or assigns the module-level globals. *)
Definition Prog (A : Type) : Type :=
  globals -> env -> outcome A * globals * env.

#[global] Instance Prog_Monad : Monad Prog := {
  ret A a := fun g e => (Returned a, g, e);
  bind A B c k := fun g e =>
    match c g e with
    | (Returned a, g', e') => k a g' e'
    | (Raised x, g', e') => (Raised x, g', e')
    | (OutOfFuel, g', e') => (OutOfFuel, g', e')
    end
}.

(** A function without a [global] declaration cannot assign the globals. *)
Definition io {A} (c : IO A) : Prog A := fun g e =>
  let (r, e') := c e in (r, g, e').

Definition get_OFFSET : Prog num := fun g e => (Returned (OFFSET g), g, e).
Definition get_SCALE : Prog num := fun g e => (Returned (SCALE g), g, e).
Definition set_OFFSET (v : num) : Prog unit := fun g e =>
  (Returned tt, mkGlobals v (SCALE g), e).
Definition set_SCALE (v : num) : Prog unit := fun g e =>
  (Returned tt, mkGlobals (OFFSET g) v, e).

(** [tare(times)]. *)
Definition tare (times : nat) : Prog bool :=
  avg <- io (read_average times) ;;
  match avg with
  | Some a =>
      set_OFFSET (Float a) ;;
      ret true
  | None => ret false
  end.

(** [calibrate(known_weight_grams, times)]. The right-hand side of the
    assignment is evaluated first; if it raises, [SCALE] is not assigned. *)
Definition calibrate (known_weight_grams : num) (times : nat) : Prog bool :=
  avg <- io (read_average times) ;;
  match avg with
  | Some a =>
      offset <- get_OFFSET ;;
      d <- io (eval (sub (Float a) offset)) ;;
      s <- io (eval (truediv d known_weight_grams)) ;;
      set_SCALE s ;;
      ret true
  | None => ret false
  end.

(** [get_weight()]. *)
Definition get_weight : Prog (option num) :=
  raw <- io read_raw ;;
  match raw with
  | Some r =>
      offset <- get_OFFSET ;;
      d <- io (eval (sub (Int r) offset)) ;;
      scale <- get_SCALE ;;
      w <- io (eval (truediv d scale)) ;;
      ret (Some w)
  | None => ret None
  end.

End Scale.

Import Scale.

(** ** The diagnostic checks of test_raw_gpio.py and test_scale.py *)

Module Diagnostics.

(** The four messages at the end of [test_pins] (test_raw_gpio.py), decided
    on the unsigned 24-bit [raw_value]. *)
Inductive verdict : Type :=
| StuckHigh      (* "All bits are 1" *)
| StuckLow       (* "All bits are 0" *)
| MiddleByteFF   (* "Middle byte is 0xFF" *)
| VariedBits.    (* "Got varied bits" *)

Definition test_pins_verdict (raw_value : Z) : verdict :=
  let byte2 := Z.land (Z.shiftr raw_value 8) 0xFF in
  if raw_value =? 0xFFFFFF then StuckHigh
  else if raw_value =? 0x000000 then StuckLow
  else if byte2 =? 0xFF then MiddleByteFF
  else VariedBits.

(** [test_reading_formats] (test_scale.py):
    [all((r & (r + 1)) == 0 or r == 0 for r in readings if r > 0)]. *)
Definition suspicious (readings : list Z) : bool :=
  forallb (fun r => (Z.land r (r + 1) =? 0) || (r =? 0))
          (filter (fun r => 0 <? r) readings).

(** [test_stability] (test_scale.py) counts the readings with
    [r > 0 and (r & (r + 1)) == 0]. *)
Definition is_pow2_minus_1 (r : Z) : bool :=
  (0 <? r) && (Z.land r (r + 1) =? 0).

Definition suspicious_count (readings : list Z) : Z :=
  len (filter is_pow2_minus_1 readings).

(** The figures [test_stability] derives from its readings. *)
Record statistics : Type := mkStatistics {
  avg : float;
  min_val : Z;
  max_val : Z;
  variance : Z
}.

(** The builtins [min] and [max] on a non-empty list [x :: rest]. *)
Definition py_min (x : Z) (rest : list Z) : Z := fold_left Z.min rest x.
Definition py_max (x : Z) (rest : list Z) : Z := fold_left Z.max rest x.

(** The [if readings:] block of [test_stability]; nothing is computed for
    an empty list. *)
Definition stability_stats (readings : list Z) : outcome (option statistics) :=
  match readings with
  | [] => Returned None
  | x :: rest =>
      obind (int_truediv (sum readings) (len readings)) (fun avg =>
      let min_val := py_min x rest in
      let max_val := py_max x rest in
      let variance := max_val - min_val in
      Returned (Some (mkStatistics avg min_val max_val variance)))
  end.

End Diagnostics.

Import Diagnostics.

(** ** The classification and the encoder of the specification *)

Module Decoder.



(** The 24-bit two's-complement magnitude of a signed value. The driver
    only decodes; this is the encoding that the round-trip property of the
    specification refers to. *)
Definition encode (signed : Z) : Z := signed mod 0x1000000.

End Decoder.

Import Decoder.

(** ** Concrete environments used in the examples *)

Module Bench.

(** The data line shows [levels] one after the other and stays LOW
    afterwards. *)
Definition env_of (levels : list bool) : env :=
  mkEnv (fun k => nth k levels false) 0 0 [].

(** The 24 levels that carry [magnitude], most significant bit first. *)
Definition bits24 (magnitude : Z) : list bool :=
  map (fun i => Z.testbit magnitude (23 - Z.of_nat i)) (seq 0 24).

(** A conversion that is ready at the first poll and delivers
    [magnitude]. *)
Definition sample (magnitude : Z) : list bool := false :: bits24 magnitude.

(** A device that stays busy for a whole readiness wait: 2002 polls all
    find the line HIGH. *)
Definition busy : list bool := repeat true 2002.

(** Five conversions of which the first and the fourth never become
    ready, the others delivering 10, 12 and 11. *)
Definition two_timeouts : env :=
  env_of (busy ++ sample 10 ++ sample 12 ++ busy ++ sample 11).

(** Four conversions delivering 100, 102, 98 and 100. *)
Definition empty_pan : env :=
  env_of (sample 100 ++ sample 102 ++ sample 98 ++ sample 100).

(** A device that never becomes ready during one read. *)
Definition unplugged : env := env_of busy.

(** One conversion delivering 600. *)
Definition loaded_pan : env := env_of (sample 600).

(** Binary64 literals. *)
Definition zero : float := S754_zero false.          (* 0.0 *)
Definition hundred : float := of_Z 100.              (* 100.0 *)
Definition five_hundred : float := of_Z 500.         (* 500.0 *)

End Bench.

Import Bench.


(** ** Vocabulary for the statements about the wire and the read sequence *)

Module Wire.

(** The levels that the next [n] samples of the data line will find. *)
Definition incoming (e : env) (n : nat) : list Z :=
  map (fun i => Z.b2z (data_line e (samples e + i))) (seq 0 n).

(** What the shift loop of [read_raw] folds over the sampled levels,
    starting from [acc]. *)
Definition shifted (acc : Z) (bits : list Z) : Z :=
  fold_left (fun a b => Z.lor (Z.shiftl a 1) b) bits acc.

(** The environment right after a readiness poll that found the line
    LOW. *)
Definition polled_ready (e : env) : env :=
  mkEnv (data_line e) (S (samples e)) (clock e)
    (trace e ++ [Input DOUT_PIN 0]).

(** The value of a bit string sent most significant bit first: bit [i] of
    [n] bits weighs [2 ^ (n - 1 - i)]. *)
Fixpoint msb_first (bits : list Z) : Z :=
  match bits with
  | [] => 0
  | b :: rest => b * 2 ^ Z.of_nat (length rest) + msb_first rest
  end.

(** One data-bit cycle on the pins: clock HIGH, clock LOW, one sample of
    the data line. *)
Definition data_cycle (level : Z) : list event :=
  [Output SCK_PIN 1; Output SCK_PIN 0; Input DOUT_PIN level].

(** One gain pulse: clock HIGH, clock LOW, nothing sampled. *)
Definition gain_pulse : list event :=
  [Output SCK_PIN 1; Output SCK_PIN 0].

(** The successive levels written to the clock pin. *)
Definition clock_levels (t : list event) : list Z :=
  flat_map (fun ev =>
              match ev with
              | Output pin level => if pin =? SCK_PIN then [level] else []
              | Input _ _ => []
              end) t.

(** HIGH-then-LOW cycles in a sequence of clock levels. *)
Fixpoint high_low_cycles (levels : list Z) : nat :=
  match levels with
  | [] => O
  | l :: rest =>
      match rest with
      | l' :: _ =>
          if (l =? 1) && (l' =? 0) then S (high_low_cycles rest)
          else high_low_cycles rest
      | [] => O
      end
  end.

(** The levels sampled on the data pin. *)
Definition sampled_levels (t : list event) : list Z :=
  flat_map (fun ev =>
              match ev with
              | Input pin level => if pin =? DOUT_PIN then [level] else []
              | Output _ _ => []
              end) t.

(** [n] transport reads in a row, each followed by the inter-read delay of
    [read_average]: what each read produced, and the environment left. *)
Fixpoint transport_reads (n : nat) (e : env) : list (outcome (option Z)) * env :=
  match n with
  | O => ([], e)
  | S n' =>
      let (r, e1) := read_raw e in
      let (_, e2) := time_sleep 10 e1 in
      let (rs, e3) := transport_reads n' e2 in
      (r :: rs, e3)
  end.

(** The reads that delivered a value, in order; a timeout delivers none. *)
Definition valid_values (rs : list (outcome (option Z))) : list Z :=
  flat_map (fun r =>
              match r with
              | Returned (Some v) => [v]
              | _ => []
              end) rs.

Definition timed_out (r : outcome (option Z)) : Prop := r = Returned None.

(** The signed 24-bit range of a sample. *)
Definition in_range (v : Z) : Prop := -8388608 <= v <= 8388607.

(** The arithmetic mean as Python computes it, [sum(values) / len(values)]. *)
Definition mean (values : list Z) : outcome float :=
  int_truediv (sum values) (len values).

End Wire.

Import Wire.

(** ** The rest of scale.py *)

Module ScaleRest.

(** [get_weight_average(times)]. *)
Definition get_weight_average (times : nat) : Prog (option num) :=
  avg <- io (read_average times) ;;
  match avg with
  | Some a =>
      offset <- get_OFFSET ;;
      d <- io (eval (sub (Float a) offset)) ;;
      scale <- get_SCALE ;;
      w <- io (eval (truediv d scale)) ;;
      ret (Some w)
  | None => ret None
  end.

(** The calls that [main] makes in a row once the communication test has
    passed and the user asked for a calibration: [tare], [calibrate] with
    the weight typed in, then one [get_weight_average] of the display
    loop. The window sizes are parameters. *)
Definition session (weight : num) (n_tare n_cal n_weigh : nat) : Prog (option num) :=
  tare n_tare ;;
  calibrate weight n_cal ;;
  get_weight_average n_weigh.

End ScaleRest.

Import ScaleRest.

(** ** diagnose_hx711.py *)

Module Diagnose.

(** The [while] loop of [check_ready_signal], unrolled at most [S fuel]
    times. [GPIO.HIGH] is 1. *)
Fixpoint ready_signal_loop (fuel : nat) (start_time timeout : Z) : IO bool :=
  level <- GPIO_input DOUT_PIN ;;
  if level =? 1 then
    now <- time_time ;;
    if now - start_time >? timeout then ret false
    else
      time_sleep 1 ;;
      match fuel with
      | O => out_of_fuel
      | S fuel' => ready_signal_loop fuel' start_time timeout
      end
  else ret true.

(** [check_ready_signal], with its two-second timeout. *)
Definition check_ready_signal : IO bool :=
  GPIO_output SCK_PIN 0 ;;
  start_time <- time_time ;;
  ready_signal_loop (Z.to_nat (2000 + 1)) start_time 2000.

(** The end of [check_sck_toggle], once the 25 levels are in
    [dout_states]: the two counts and the verdict. *)
Definition toggle_highs (dout_states : list Z) : Z := sum dout_states.
Definition toggle_lows (dout_states : list Z) : Z :=
  len dout_states - toggle_highs dout_states.

Definition toggle_verdict (dout_states : list Z) : bool :=
  if toggle_highs dout_states =? 25 then false
  else if toggle_lows dout_states =? 25 then false
  else true.

(** The end of [read_raw_value], once the 24 bits are in [raw_value]:
    the signed value, withheld for the two stuck patterns. *)
Definition read_raw_value_result (raw_value : Z) : option Z :=
  let signed_value :=
    if Z.land raw_value 0x800000 =? 0 then raw_value
    else raw_value - 0x1000000 in
  if raw_value =? 0xFFFFFF then None
  else if raw_value =? 0x000000 then None
  else Some signed_value.

(** The end of [try_swapped_pins]. *)
Definition swapped_pins_result (raw_value : Z) : option Z :=
  let signed_value :=
    if Z.land raw_value 0x800000 =? 0 then raw_value
    else raw_value - 0x1000000 in
  if negb (raw_value =? 0xFFFFFF) && negb (raw_value =? 0x000000)
  then Some signed_value
  else None.

(** The test of [main]: [value is not None and value != -1]. *)
Definition appears_working (value : option Z) : bool :=
  match value with
  | Some v => negb (v =? -1)
  | None => false
  end.

End Diagnose.

Import Diagnose.

(** ** test_raw_gpio.py: the byte analysis and the summary *)

Module RawGpio.

Definition byte1 (raw_value : Z) : Z := Z.land (Z.shiftr raw_value 16) 0xFF.
Definition byte2 (raw_value : Z) : Z := Z.land (Z.shiftr raw_value 8) 0xFF.
Definition byte3 (raw_value : Z) : Z := Z.land raw_value 0xFF.

(** The status column of the summary in [main]; [result] is what
    [test_pins] returned. *)
Inductive status : Type :=
| Timeout       (* "TIMEOUT (no response)" *)
| AllOnesStatus (* "ALL 1s (stuck HIGH)" *)
| AllZerosStatus (* "ALL 0s (stuck LOW)" *)
| Good (result : Z). (* the value in hexadecimal and a check mark *)

Definition summary_status (result : option Z) : status :=
  match result with
  | None => Timeout
  | Some r =>
      if r =? 0xFFFFFF then AllOnesStatus
      else if r =? 0x000000 then AllZerosStatus
      else Good r
  end.

End RawGpio.

Import RawGpio.

(** ** test_scale.py: choice of the reading format and stability verdict *)

Module Formats.

Inductive order : Type := MSB | LSB.

Definition format : Type := (order * order)%type.

(** The four formats, in the order [test_reading_formats] tries them. *)
Definition formats : list format :=
  [(MSB, MSB); (MSB, LSB); (LSB, MSB); (LSB, LSB)].

(** What the loop keeps from one format to the next. [best_variance]
    starts at [float('inf')], here [None]. *)
Record best : Type := mkBest {
  best_format : option format;
  best_variance : option Z;
  best_readings : list Z
}.

Definition initial_best : best := mkBest None None [].

(** [variance < best_variance], an int against an int or against
    infinity. *)
Definition below (variance : Z) (best_variance : option Z) : bool :=
  match best_variance with
  | None => true
  | Some b => variance <? b
  end.

(** One round of the loop for a format whose five readings are
    [x :: rest]: the average (printed only), the spread, the flag, and the
    update of the best format. *)
Definition try_format (b : best) (f : format) (x : Z) (rest : list Z) : outcome best :=
  let readings := x :: rest in
  obind (int_truediv (sum readings) (len readings)) (fun _ =>
  let variance := py_max x rest - py_min x rest in
  if negb (suspicious readings) && below variance (best_variance b)
  then Returned (mkBest (Some f) (Some variance) readings)
  else Returned b).

(** The loop over the formats tried, each with the readings it gave. *)
Fixpoint try_formats (b : best) (trials : list (format * (Z * list Z))) : outcome best :=
  match trials with
  | [] => Returned b
  | (f, (x, rest)) :: more =>
      obind (try_format b f x rest) (fun b' => try_formats b' more)
  end.

(** The format set at the end: the best one, or MSB/MSB when every
    format looked suspicious. *)
Definition chosen_format (b : best) : format :=
  match best_format b with
  | Some f => f
  | None => (MSB, MSB)
  end.

(** The verdict at the end of [test_stability]. *)
Inductive stability : Type :=
| MostlyPatterns  (* "Values are mostly 2^n-1 patterns" *)
| Stable          (* "Readings are stable!" *)
| SomeVariance.   (* "Readings show some variance" *)

(** The literal [0.05]. *)
Definition five_percent : float := S754_finite false 7205759403792794 (-57).

(** The [if readings:] block of [test_stability] down to its verdict;
    [len(readings) // 2] is a floor division. *)
Definition stability_verdict (readings : list Z) : outcome (option stability) :=
  obind (stability_stats readings) (fun stats =>
  match stats with
  | None => Returned None
  | Some st =>
      if len readings / 2 <? suspicious_count readings
      then Returned (Some MostlyPatterns)
      else if fis_zero (avg st) then Returned (Some SomeVariance)
      else
        obind (truediv (Int (variance st)) (Float (avg st))) (fun q =>
        match q with
        | Float r =>
            if SFltb (SFabs r) five_percent then Returned (Some Stable)
            else Returned (Some SomeVariance)
        | Int _ => Returned (Some SomeVariance)
        end)
  end).

End Formats.

Import Formats.

(** ** More vocabulary for the statements *)

Module Wire2.

(** The first [k] samples to come all find the data line HIGH. *)
Definition high_for (e : env) (k : nat) : Prop :=
  forall i : nat, (i < k)%nat -> data_line e (samples e + i) = true.

(** The environment after [k] polls that found the line HIGH, each
    followed by a millisecond of sleep. *)
Definition after_busy_polls (e : env) (k : nat) : env :=
  mkEnv (data_line e) (samples e + k) (clock e + Z.of_nat k)
    (trace e ++ repeat (Input DOUT_PIN 1) k).

(** [p] HIGH-then-LOW pulses on the clock line. *)
Fixpoint pulse_train (p : nat) : list Z :=
  match p with
  | O => []
  | S p' => 1 :: 0 :: pulse_train p'
  end.

(** An access that the driver is entitled to: a write to the clock pin or
    a look at the data pin. *)
Definition driver_event (ev : event) : Prop :=
  match ev with
  | Output pin level => pin = SCK_PIN /\ (level = 0 \/ level = 1)
  | Input pin level => pin = DOUT_PIN /\ (level = 0 \/ level = 1)
  end.

(** A poll of the data pin. *)
Definition poll_event (ev : event) : Prop :=
  exists level : Z, ev = Input DOUT_PIN level /\ (level = 0 \/ level = 1).

(** A power of two minus one, [2 ^ n - 1] with [n >= 1]. *)
Definition pow2_minus_1 (r : Z) : Prop :=
  exists n : Z, 1 <= n /\ r = 2 ^ n - 1.

(** Three conversions delivering 100, 600 and 350. *)
Definition three_weighings : env :=
  env_of (sample 100 ++ sample 600 ++ sample 350).


(** Two conversions delivering 600. *)
Definition same_twice : env := env_of (sample 600 ++ sample 600).

End Wire2.

Import Wire2.

(** ** Vocabulary for the choice of the reading format *)

Module Choice.

(** A format tried, with the readings it gave. *)
Definition trial : Type := (format * (Z * list Z))%type.

Definition readings_of (t : trial) : list Z := fst (snd t) :: snd (snd t).

(** The spread of the readings of a trial, greatest minus least. *)
Definition spread (t : trial) : Z :=
  py_max (fst (snd t)) (snd (snd t)) - py_min (fst (snd t)) (snd (snd t)).

(** [b] is the best of the trials [seen]: nothing is kept when all of them
    are suspicious; otherwise a trial that is not suspicious and whose
    spread is the least among those is kept. *)
Definition best_of (seen : list trial) (b : best) : Prop :=
  match best_format b with
  | None =>
      best_variance b = None /\
      forall t : trial, In t seen -> suspicious (readings_of t) = true
  | Some f =>
      exists t : trial,
        In t seen /\ fst t = f /\
        suspicious (readings_of t) = false /\
        best_readings b = readings_of t /\
        best_variance b = Some (spread t) /\
        forall t' : trial,
          In t' seen -> suspicious (readings_of t') = false ->
          spread t <= spread t'
  end.

End Choice.

Import Choice.

(** * Properties *)

(** ** The sample decoder *)

Section DecoderFacts.

Lemma sign_bit_mask (m : Z) :
  Z.land m 0x800000 = if Z.testbit m 23 then 0x800000 else 0.
Proof.
  change 0x800000 with (2 ^ 23).
  apply Z.bits_inj'; intros i Hi.
  rewrite Z.land_spec, Z.pow2_bits_eqb by lia.
  destruct (Z.eqb_spec 23 i) as [<- | Hne].
  - destruct (Z.testbit m 23) eqn:E.
    + now rewrite Z.pow2_bits_true by lia.
    + now rewrite Z.bits_0.
  - rewrite andb_false_r.
    destruct (Z.testbit m 23).
    + now rewrite Z.pow2_bits_false by lia.
    + now rewrite Z.bits_0.
Qed.

Lemma sign_bit_threshold (m : Z) :
  0 <= m <= 0xFFFFFF -> Z.testbit m 23 = (0x800000 <=? m).
Proof.
  intros Hm.
  destruct (Z.leb_spec 0x800000 m) as [Hge | Hlt].
  - apply Z.testbit_true; [lia |].
    replace (m / 2 ^ 23) with 1; [reflexivity |].
    apply Z.div_unique with (r := m - 2 ^ 23); lia.
  - apply Z.testbit_false; [lia |].
    rewrite Z.div_small by lia. reflexivity.
Qed.

Lemma to_signed_testbit (m : Z) :
  to_signed m = if Z.testbit m 23 then m - 0x1000000 else m.
Proof.
  unfold to_signed. rewrite sign_bit_mask.
  now destruct (Z.testbit m 23).
Qed.

Lemma to_signed_range (m : Z) :
  0 <= m <= 0xFFFFFF -> -8388608 <= to_signed m <= 8388607.
Proof.
  intros Hm. rewrite to_signed_testbit, sign_bit_threshold by exact Hm.
  destruct (Z.leb_spec 0x800000 m); lia.
Qed.

End DecoderFacts.

(** C1. On a 24-bit magnitude the decoder subtracts [0x1000000] exactly
    when bit 23 is set and leaves the magnitude alone otherwise; the four
    corner magnitudes decode to 0, -1, -8388608 and 8388607. *)
Theorem decoder_twos_complement :
  (forall m : Z, 0 <= m <= 0xFFFFFF ->
     to_signed m = if Z.testbit m 23 then m - 0x1000000 else m) /\
  to_signed 0x000000 = 0 /\
  to_signed 0xFFFFFF = -1 /\
  to_signed 0x800000 = -8388608 /\
  to_signed 0x7FFFFF = 8388607.
Proof.
  split; [intros m _; apply to_signed_testbit |].
  repeat split; reflexivity.
Qed.

Lemma decoder_twos_complement_witness :
  0 <= 0xABCDEF <= 0xFFFFFF /\ to_signed 0xABCDEF = 0xABCDEF - 0x1000000.
Proof.
  split; [lia |].
  exact (proj1 decoder_twos_complement 0xABCDEF ltac:(lia)).
Defined.

(** C7. Decoding inverts encoding: a signed value of the 24-bit range,
    turned into its two's-complement magnitude and decoded, comes back
    unchanged. *)
Theorem decode_encode_roundtrip (s : Z) :
  -8388608 <= s <= 8388607 ->
  0 <= encode s <= 0xFFFFFF /\ to_signed (encode s) = s.
Proof.
  intros Hs. unfold encode.
  assert (Hr : 0 <= s mod 0x1000000 < 0x1000000)
    by (apply Z.mod_pos_bound; lia).
  split; [lia |].
  rewrite to_signed_testbit, sign_bit_threshold by lia.
  destruct (Z_lt_le_dec s 0) as [Hneg | Hpos].
  - assert (E : s mod 0x1000000 = s + 0x1000000).
    { symmetry. apply Z.mod_unique with (q := -1); lia. }
    rewrite E. destruct (Z.leb_spec 0x800000 (s + 0x1000000)); lia.
  - rewrite Z.mod_small by lia.
    destruct (Z.leb_spec 0x800000 s); lia.
Qed.

Lemma decode_encode_roundtrip_witness :
  to_signed (encode (-8388608)) = -8388608.
Proof.
  exact (proj2 (decode_encode_roundtrip (-8388608) ltac:(lia))).
Defined.

(** ** Degenerate-pattern classification *)

Section Classification.



End Classification.

(** The flag of [test_reading_formats] on any list of readings: every
    positive reading passes the power-of-two test. *)
Lemma suspicious_all_positive (readings : list Z) :
  suspicious readings = true <->
  forall r : Z, In r readings -> 0 < r -> Z.land r (r + 1) = 0.
Proof.
  unfold suspicious. rewrite forallb_forall. split.
  - intros H r Hin Hr.
    assert (Hf : In r (filter (fun r => 0 <? r) readings)).
    { apply filter_In. split; [exact Hin | now apply Z.ltb_lt]. }
    specialize (H r Hf). apply orb_true_iff in H.
    destruct H as [H | H]; [now apply Z.eqb_eq | apply Z.eqb_eq in H; lia].
  - intros H r Hf. apply filter_In in Hf. destruct Hf as [Hin Hr].
    apply Z.ltb_lt in Hr. apply orb_true_iff. left.
    apply Z.eqb_eq. now apply H.
Qed.





(** ** The bit-level transport *)

Section Transport.

Lemma shift_or_bit (a b : Z) :
  0 <= a -> 0 <= b <= 1 -> Z.lor (Z.shiftl a 1) b = 2 * a + b.
Proof.
  intros Ha Hb.
  assert (Hc : b = 0 \/ b = 1) by lia.
  rewrite Z.shiftl_mul_pow2 by lia. change (2 ^ 1) with 2.
  destruct Hc as [-> | ->].
  - rewrite Z.lor_0_r. lia.
  - destruct a as [| p | p]; [reflexivity | | lia].
    rewrite Z.mul_comm. reflexivity.
Qed.

Lemma incoming_levels (e : env) (n : nat) :
  Forall (fun b => 0 <= b <= 1) (incoming e n).
Proof.
  unfold incoming. apply Forall_forall. intros b Hb.
  apply in_map_iff in Hb. destruct Hb as (i & <- & _).
  destruct (data_line e (samples e + i)); simpl; lia.
Qed.

Lemma incoming_length (e : env) (n : nat) : length (incoming e n) = n.
Proof. unfold incoming. now rewrite length_map, length_seq. Qed.

Lemma incoming_succ (e : env) (n : nat) :
  incoming e (S n) =
  Z.b2z (data_line e (samples e)) ::
  incoming (mkEnv (data_line e) (S (samples e)) (clock e)
              (trace e ++ data_cycle (Z.b2z (data_line e (samples e))))) n.
Proof.
  unfold incoming. simpl seq. simpl map. rewrite Nat.add_0_r. f_equal.
  rewrite <- seq_shift, map_map. apply map_ext. intros i. simpl.
  now rewrite Nat.add_succ_r.
Qed.

Lemma shift_in_run (n : nat) : forall (acc : Z) (e : env),
  shift_in n acc e =
  (Returned (shifted acc (incoming e n)),
   mkEnv (data_line e) (samples e + n) (clock e)
     (trace e ++ flat_map data_cycle (incoming e n))).
Proof.
  induction n as [| n IH]; intros acc e.
  - simpl. unfold incoming. simpl. rewrite Nat.add_0_r, app_nil_r.
    now destruct e.
  - rewrite incoming_succ. cbn [shift_in].
    cbn [bind IO_Monad GPIO_output GPIO_input data_line samples clock trace].
    rewrite IH. cbn [data_line samples clock trace flat_map shifted fold_left].
    f_equal. f_equal.
    + cbn [Nat.add]. now rewrite Nat.add_succ_r.
    + unfold data_cycle. rewrite <- !app_assoc. reflexivity.
Qed.

Lemma shifted_msb_first (bits : list Z) : forall acc : Z,
  0 <= acc -> Forall (fun b => 0 <= b <= 1) bits ->
  shifted acc bits = acc * 2 ^ Z.of_nat (length bits) + msb_first bits /\
  0 <= msb_first bits < 2 ^ Z.of_nat (length bits).
Proof.
  induction bits as [| b rest IH]; intros acc Hacc Hbits.
  - simpl. lia.
  - inversion Hbits as [| ? ? Hb Hrest]; subst.
    unfold shifted. cbn [fold_left]. fold (shifted (Z.lor (Z.shiftl acc 1) b) rest).
    rewrite shift_or_bit by assumption.
    destruct (IH (2 * acc + b) ltac:(lia) Hrest) as [E R].
    rewrite E. cbn [msb_first length].
    rewrite Nat2Z.inj_succ, Z.pow_succ_r by lia.
    split; [ring | nia].
Qed.

(** A device that is ready at the first poll ends the wait at once. *)
Lemma wait_ready_at_once (timeout : Z) (e : env) :
  data_line e (samples e) = false ->
  wait_ready timeout e =
  (Returned true, polled_ready e).
Proof.
  intros Hready. unfold wait_ready.
  cbn [bind IO_Monad time_time].
  destruct (Z.to_nat (timeout + 1)) as [| fuel];
    cbn [wait_ready_loop bind ret IO_Monad is_ready GPIO_input];
    rewrite Hready; reflexivity.
Qed.

(** The wait always ends: the loop sleeps a millisecond per round, and
    the unrolling bound covers the rounds that fit in the timeout. *)
Lemma wait_ready_loop_returns (fuel : nat) : forall (start timeout : Z) (e : env),
  timeout - (clock e - start) < Z.of_nat fuel ->
  exists (ready : bool) (e' : env),
    wait_ready_loop fuel start timeout e = (Returned ready, e') /\
    data_line e' = data_line e.
Proof.
  induction fuel as [| fuel IH]; intros start timeout e Hfuel;
    cbn [wait_ready_loop is_ready bind ret IO_Monad GPIO_input time_time];
    (destruct (Z.b2z (data_line e (samples e)) =? 0);
       [eexists _, _; split; reflexivity |]);
    cbn [clock];
    (destruct (Z.gtb_spec (clock e - start) timeout);
       [eexists _, _; split; reflexivity |]).
  - simpl in Hfuel. lia.
  - cbn [time_sleep data_line samples clock trace].
    match goal with
    | |- context [wait_ready_loop fuel start timeout ?e1] =>
        destruct (IH start timeout e1) as (r & e' & E & D)
    end.
    { cbn [clock]. lia. }
    rewrite E. eexists _, _. split; [reflexivity | exact D].
Qed.

Lemma wait_ready_returns (timeout : Z) (e : env) :
  exists (ready : bool) (e' : env),
    wait_ready timeout e = (Returned ready, e') /\
    data_line e' = data_line e.
Proof.
  unfold wait_ready. cbn [bind IO_Monad time_time].
  apply wait_ready_loop_returns. lia.
Qed.

Lemma read_raw_ready (e : env) :
  data_line e (samples e) = false ->
  let bits := incoming (polled_ready e) 24 in
  read_raw e =
  (Returned (Some (to_signed (msb_first bits))),
   mkEnv (data_line e) (samples e + 25) (clock e)
     (trace e ++ [Input DOUT_PIN 0] ++ flat_map data_cycle bits ++ gain_pulse)).
Proof.
  intros Hready bits. unfold read_raw.
  cbn [bind IO_Monad]. rewrite wait_ready_at_once by exact Hready.
  cbn [negb ret IO_Monad]. rewrite shift_in_run. fold bits.
  cbn [GPIO_output polled_ready data_line samples clock trace].
  destruct (shifted_msb_first bits 0 ltac:(lia) (incoming_levels _ _)) as [E _].
  rewrite E, Z.mul_0_l, Z.add_0_l.
  f_equal. f_equal.
  - lia.
  - unfold gain_pulse. rewrite <- !app_assoc. reflexivity.
Qed.

(** Every transport read returns: a timeout, or a sample of the signed
    24-bit range. *)
Lemma read_raw_returns (e : env) :
  exists (r : option Z) (e' : env),
    read_raw e = (Returned r, e') /\
    match r with
    | Some v => -8388608 <= v <= 8388607
    | None => True
    end.
Proof.
  destruct (wait_ready_returns default_timeout e) as (ready & e1 & E & _).
  unfold read_raw. cbn [bind IO_Monad]. rewrite E.
  destruct ready; cbn [negb ret IO_Monad].
  - rewrite shift_in_run. cbn [GPIO_output data_line samples clock trace].
    eexists _, _. split; [reflexivity |].
    destruct (shifted_msb_first (incoming e1 24) 0 ltac:(lia)
                (incoming_levels _ _)) as [Ev R].
    rewrite Ev, Z.mul_0_l, Z.add_0_l. rewrite incoming_length in R.
    apply to_signed_range. change (2 ^ Z.of_nat 24) with 0x1000000 in R. lia.
  - eexists _, _. split; [reflexivity | exact I].
Qed.

End Transport.

(** C2. With the device ready at the first poll, one [read_raw] pulses the
    clock line HIGH then LOW 25 times (24 data-bit cycles and the one gain
    pulse of gain 128), samples the data line once in each data-bit cycle
    and never in the gain pulse, and returns the decoded magnitude whose
    bit [i] of the 24 sampled levels weighs [2 ^ (23 - i)]. *)
Theorem read_raw_exchange (e : env) :
  data_line e (samples e) = false ->
  exists (bits : list Z) (e' : env),
    incoming e 25 = 0 :: bits /\
    length bits = 24%nat /\
    read_raw e = (Returned (Some (to_signed (msb_first bits))), e') /\
    trace e' =
      trace e ++ [Input DOUT_PIN 0] ++ flat_map data_cycle bits ++ gain_pulse /\
    high_low_cycles (clock_levels (flat_map data_cycle bits ++ gain_pulse)) =
      (24 + 1)%nat /\
    high_low_cycles (clock_levels (flat_map data_cycle bits)) = 24%nat /\
    high_low_cycles (clock_levels gain_pulse) = 1%nat /\
    sampled_levels (flat_map data_cycle bits) = bits /\
    sampled_levels gain_pulse = [] /\
    msb_first bits =
      fold_right Z.add 0
        (map (fun i => nth i bits 0 * 2 ^ (23 - Z.of_nat i)) (seq 0 24)) /\
    0 <= msb_first bits <= 0xFFFFFF.
Proof.
  intros Hready.
  exists (incoming (polled_ready e) 24). eexists.
  split.
  { rewrite incoming_succ, Hready. reflexivity. }
  split; [apply incoming_length |].
  split; [apply read_raw_ready; exact Hready |].
  split; [reflexivity |].
  pose proof (incoming_levels (polled_ready e) 24) as Hbits.
  pose proof (incoming_length (polled_ready e) 24) as Hlen.
  destruct (shifted_msb_first _ 0 ltac:(lia) Hbits) as [_ R].
  rewrite Hlen in R. change (2 ^ Z.of_nat 24) with 0x1000000 in R.
  remember (incoming (polled_ready e) 24) as bits eqn:Eb. clear Eb Hbits.
  do 24 (destruct bits as [| ? bits]; [discriminate Hlen |]).
  destruct bits; [| discriminate Hlen].
  repeat split; try reflexivity; try lia.
Qed.

Lemma read_raw_exchange_witness :
  exists (bits : list Z) (e' : env),
    incoming (env_of (sample 0x7FFFFF)) 25 = 0 :: bits /\
    read_raw (env_of (sample 0x7FFFFF)) =
      (Returned (Some (to_signed (msb_first bits))), e') /\
    msb_first bits = 0x7FFFFF.
Proof.
  destruct (read_raw_exchange (env_of (sample 0x7FFFFF)) eq_refl)
    as (bits & e' & Hin & _ & Hrun & _).
  exists bits, e'. split; [exact Hin |]. split; [exact Hrun |].
  injection Hin as <-. reflexivity.
Defined.

(** ** Float arithmetic on the integers the driver handles *)

Section FloatFacts.

Local Abbreviation digits := Zdigits2.

Lemma digits2_pos_size (p : positive) : digits2_pos p = Pos.size p.
Proof. induction p; simpl; congruence. Qed.

Lemma digits_nonneg (m : Z) : 0 <= digits m.
Proof. destruct m; simpl; lia. Qed.

Lemma digits_gt (m : Z) : 0 <= m -> m < 2 ^ digits m.
Proof.
  destruct m as [| p | p]; intros Hm; [reflexivity | | lia].
  simpl. rewrite digits2_pos_size.
  pose proof (Pos.size_gt p) as H.
  apply Pos2Z.pos_lt_pos in H. now rewrite Pos2Z.inj_pow in H.
Qed.

Lemma digits_le (m k : Z) : 0 <= m -> 0 <= k -> m < 2 ^ k -> digits m <= k.
Proof.
  destruct m as [| p | p]; intros Hm Hk Hlt; [exact Hk | | lia].
  simpl. rewrite digits2_pos_size.
  pose proof (Pos.size_le p) as H.
  apply Pos2Z.pos_le_pos in H. rewrite Pos2Z.inj_pow in H.
  change (Z.pos p~0) with (2 * Z.pos p) in H.
  assert (L : 2 ^ Z.pos (Pos.size p) < 2 ^ (k + 1)).
  { rewrite Z.pow_add_r by lia. lia. }
  apply Z.pow_lt_mono_r_iff in L; lia.
Qed.

Lemma digits_ge (m k : Z) : 0 <= k -> 2 ^ k <= m -> k < digits m.
Proof.
  intros Hk Hle.
  assert (Hm : 0 <= m) by (pose proof (Z.pow_pos_nonneg 2 k); lia).
  pose proof (digits_gt m Hm) as Hgt.
  apply (Z.pow_lt_mono_r_iff 2); [lia | apply digits_nonneg | lia].
Qed.

Lemma digits_unique (m d : Z) :
  0 < d -> 2 ^ (d - 1) <= m < 2 ^ d -> digits m = d.
Proof.
  intros Hd [Hlo Hhi].
  assert (Hm : 0 <= m) by (pose proof (Z.pow_pos_nonneg 2 (d - 1)); lia).
  pose proof (digits_le m d Hm ltac:(lia) Hhi).
  pose proof (digits_ge m (d - 1) ltac:(lia) Hlo). lia.
Qed.

Lemma digits_lower (m : Z) : 0 < m -> 2 ^ (digits m - 1) <= m.
Proof.
  destruct m as [| p | p]; intros Hm; try lia.
  cbn [Zdigits2]. rewrite digits2_pos_size.
  pose proof (Pos.size_le p) as H.
  apply Pos2Z.pos_le_pos in H. rewrite Pos2Z.inj_pow in H.
  change (Z.pos p~0) with (2 * Z.pos p) in H.
  replace (Z.pos (Pos.size p)) with (Z.pos (Pos.size p) - 1 + 1) in H by lia.
  rewrite Z.pow_add_r in H by lia. change (2 ^ 1) with 2 in H. lia.
Qed.

(** The shifts of [SpecFloat], as iterations over [nat]. *)
Lemma iter_pos_nat {A} (f : A -> A) (p : positive) : forall x : A,
  iter_pos f p x = Nat.iter (Pos.to_nat p) f x.
Proof.
  induction p as [p IH | p IH |]; intros x; cbn [iter_pos].
  - rewrite !IH, Pos2Nat.inj_xI, <- Nat.iter_succ_r, <- Nat.iter_add.
    f_equal. lia.
  - rewrite !IH, Pos2Nat.inj_xO, <- Nat.iter_add. f_equal. lia.
  - reflexivity.
Qed.

Lemma shr_1_m (mrs : shr_record) :
  0 <= shr_m mrs -> shr_m (shr_1 mrs) = shr_m mrs / 2.
Proof.
  destruct mrs as [m r s]. simpl. intros Hm.
  rewrite <- Z.div2_div.
  destruct m as [| [p | p |] | p]; try reflexivity; lia.
Qed.

Lemma shr_iter_m (n : nat) : forall mrs : shr_record,
  0 <= shr_m mrs ->
  shr_m (Nat.iter n shr_1 mrs) = shr_m mrs / 2 ^ Z.of_nat n.
Proof.
  induction n as [| n IH]; intros mrs Hm.
  - simpl. now rewrite Z.div_1_r.
  - assert (H1 : 0 <= shr_m (shr_1 mrs)).
    { rewrite shr_1_m by exact Hm. apply Z.div_pos; lia. }
    rewrite Nat.iter_succ_r, IH by exact H1. rewrite shr_1_m by exact Hm.
    assert (0 < 2 ^ Z.of_nat n) by (apply Z.pow_pos_nonneg; lia).
    rewrite Z.div_div by lia.
    rewrite Nat2Z.inj_succ, Z.pow_succ_r by lia. reflexivity.
Qed.

Lemma shr_record_of_loc_m (m : Z) (l : location) :
  shr_m (shr_record_of_loc m l) = m.
Proof. destruct l as [| []]; reflexivity. Qed.

Lemma fexp_eq (x : Z) : fexp prec emax x = Z.max (x - 53) (-1074).
Proof. reflexivity. Qed.

(** One alignment step of the rounding: the mantissa stays non-negative,
    and neither the exponent nor the magnitude grows beyond what the
    format dictates. *)
Lemma shr_fexp_bounds (m e : Z) (l : location) (mrs : shr_record) (e1 : Z) :
  0 <= m ->
  shr_fexp prec emax m e l = (mrs, e1) ->
  0 <= shr_m mrs /\
  e1 <= Z.max e (fexp prec emax (digits m + e)) /\
  digits (shr_m mrs) + e1 <= Z.max (digits m + e) e1.
Proof.
  intros Hm. unfold shr_fexp, shr.
  destruct (fexp prec emax (digits m + e) - e) as [| p | p] eqn:En;
    intros [= <- <-]; rewrite ?shr_record_of_loc_m.
  - repeat split; lia.
  - rewrite iter_pos_nat, shr_iter_m, shr_record_of_loc_m, positive_nat_Z
      by (rewrite shr_record_of_loc_m; exact Hm).
    assert (Hp : 0 < 2 ^ Z.pos p) by (apply Z.pow_pos_nonneg; lia).
    assert (Hq : 0 <= m / 2 ^ Z.pos p) by (apply Z.div_pos; lia).
    repeat split; [exact Hq | lia |].
    pose proof (digits_gt m Hm) as Hgt.
    pose proof (digits_nonneg m) as Hd.
    destruct (Z_lt_le_dec (digits m) (Z.pos p)) as [Hsmall | Hbig].
    + rewrite Z.div_small; [simpl; lia |].
      split; [exact Hm |].
      apply Z.lt_trans with (1 := Hgt).
      apply Z.pow_lt_mono_r; lia.
    + assert (digits (m / 2 ^ Z.pos p) <= digits m - Z.pos p); [| lia].
      apply digits_le; [exact Hq | lia |].
      apply Z.div_lt_upper_bound; [exact Hp |].
      rewrite <- Z.pow_add_r by lia.
      now replace (Z.pos p + (digits m - Z.pos p)) with (digits m) by lia.
  - repeat split; lia.
Qed.

Lemma round_nearest_even_bounds (m : Z) (l : location) :
  0 <= m ->
  0 <= round_nearest_even m l /\ digits (round_nearest_even m l) <= digits m + 1.
Proof.
  intros Hm.
  assert (H1 : digits (m + 1) <= digits m + 1).
  { apply digits_le; [lia | pose proof (digits_nonneg m); lia |].
    pose proof (digits_gt m Hm). pose proof (digits_nonneg m).
    rewrite Z.pow_add_r by lia. change (2 ^ 1) with 2. lia. }
  destruct l as [| []]; cbn [round_nearest_even];
    try destruct (Z.even m); split; lia.
Qed.

(** Rounding a non-negative mantissa whose magnitude stays below
    [2 ^ 1023] never leaves the finite numbers. *)
Lemma binary_round_aux_finite (s : bool) (m e : Z) (l : location) :
  0 <= m -> digits m + e <= 1023 -> e <= 971 ->
  is_finite (binary_round_aux prec emax s m e l) = true.
Proof.
  intros Hm Hd He. unfold binary_round_aux.
  destruct (shr_fexp prec emax m e l) as [mrs1 e1] eqn:E1.
  destruct (shr_fexp_bounds _ _ _ _ _ Hm E1) as (M1 & B1 & D1).
  destruct (round_nearest_even_bounds (shr_m mrs1) (loc_of_shr_record mrs1) M1)
    as (Mr & Dr).
  destruct (shr_fexp prec emax _ e1 loc_Exact) as [mrs2 e2] eqn:E2.
  destruct (shr_fexp_bounds _ _ _ _ _ Mr E2) as (M2 & B2 & _).
  rewrite fexp_eq in B1, B2.
  destruct (shr_m mrs2) as [| p | p]; [reflexivity | | lia].
  destruct (Z.leb_spec e2 (emax - prec)) as [| Hbad]; [reflexivity |].
  unfold emax, prec in Hbad. lia.
Qed.

Lemma iter_xO_value (m d : positive) :
  Z.pos (Pos.iter xO m d) = Z.pos m * 2 ^ Z.pos d.
Proof.
  induction d as [| d IH] using Pos.peano_ind.
  - cbn [Pos.iter]. lia.
  - rewrite Pos.iter_succ, Pos2Z.inj_succ, Z.pow_succ_r by lia.
    change (Z.pos (Pos.iter xO m d)~0) with (2 * Z.pos (Pos.iter xO m d)).
    rewrite IH. ring.
Qed.

(** The quotient that [SFdiv] hands to the rounding, for two integers
    whose ratio is at most [2 ^ 1000]. *)
Lemma div_core_bounds (ma mb : positive) (q e : Z) (l : location) :
  Z.pos ma <= 2 ^ 1000 * Z.pos mb ->
  SFdiv_core_binary prec emax (Z.pos ma) 0 (Z.pos mb) 0 = (q, e, l) ->
  0 <= q /\ digits q + e <= 1023 /\ e <= 971.
Proof.
  intros Hratio. unfold SFdiv_core_binary.
  set (e' := Z.min _ _).
  assert (He' : -1074 <= e' <= 0).
  { subst e'. rewrite fexp_eq. lia. }
  set (m' := match 0 - 0 - e' with Z.pos _ => _ | Z0 => _ | Z.neg _ => _ end).
  assert (Hm' : m' = Z.pos ma * 2 ^ (- e')).
  { subst m'. destruct (0 - 0 - e') as [| p | p] eqn:Es.
    - replace (- e') with 0 by lia. lia.
    - rewrite Z.shiftl_mul_pow2 by lia. f_equal. f_equal. lia.
    - lia. }
  clearbody m' e'.
  pose proof (Z_div_mod m' (Z.pos mb) ltac:(lia)) as Hdiv.
  destruct (Z.div_eucl m' (Z.pos mb)) as [q0 r0].
  intros [= <- <- <-]. destruct Hdiv as [Hq Hr].
  assert (Hp : 0 < 2 ^ (- e')) by (apply Z.pow_pos_nonneg; lia).
  assert (Hq0 : 0 <= q0) by nia.
  assert (Hub : q0 < 2 ^ (1001 - e')).
  { replace (1001 - e') with (1 + 1000 + - e') by lia.
    rewrite !Z.pow_add_r by lia. change (2 ^ 1) with 2.
    assert (0 < 2 ^ 1000) by (apply Z.pow_pos_nonneg; lia).
    nia. }
  split; [exact Hq0 |]. split; [| lia].
  pose proof (digits_le q0 (1001 - e') Hq0 ltac:(lia) Hub). lia.
Qed.

(** True division of two ints returns whenever the quotient is at most
    [2 ^ 1000] in magnitude: neither exception of [/] can arise. *)
Lemma int_truediv_returns (a b : Z) :
  b <> 0 -> Z.abs a <= 2 ^ 1000 * Z.abs b ->
  exists f : float, int_truediv a b = Returned f /\ is_finite f = true.
Proof.
  intros Hb Hratio. unfold int_truediv.
  destruct (Z.eqb_spec b 0) as [| _]; [contradiction |].
  assert (Hfin : is_finite (fdiv (int_exact a) (int_exact b)) = true).
  { destruct a as [| ma | ma], b as [| mb | mb]; try contradiction;
      try reflexivity; cbn [int_exact fdiv SFdiv];
      (destruct (SFdiv_core_binary prec emax (Z.pos ma) 0 (Z.pos mb) 0)
         as [[q e] l] eqn:Ec;
       destruct (div_core_bounds ma mb q e l Hratio Ec) as (Hq & Hd & He);
       now apply binary_round_aux_finite). }
  rewrite Hfin. eexists. split; [reflexivity | exact Hfin].
Qed.

Lemma shl_align_bounds (m : positive) (ex ex' : Z) (mz : positive) (ez : Z) :
  shl_align m ex ex' = (mz, ez) ->
  digits (Z.pos mz) + ez <= digits (Z.pos m) + ex /\ ez <= ex.
Proof.
  unfold shl_align.
  destruct (ex' - ex) as [| d | d] eqn:Ed; intros [= <- <-]; try lia.
  split; [| lia].
  assert (digits (Z.pos (Pos.iter xO m d)) <= digits (Z.pos m) + Z.pos d);
    [| lia].
  pose proof (digits_nonneg (Z.pos m)) as Hn.
  apply digits_le; [lia | lia |].
  rewrite iter_xO_value, Z.pow_add_r by lia.
  pose proof (digits_gt (Z.pos m) ltac:(lia)).
  assert (0 < 2 ^ Z.pos d) by (apply Z.pow_pos_nonneg; lia). nia.
Qed.

(** [float(z)] returns for every integer below [2 ^ 1023] in magnitude. *)
Lemma float_of_int_returns (z : Z) :
  Z.abs z < 2 ^ 1023 ->
  exists f : float, float_of_int z = Returned f /\ is_finite f = true.
Proof.
  intros Hz. unfold float_of_int.
  assert (Hfin : is_finite (of_Z z) = true).
  { unfold of_Z, binary_normalize, binary_round.
    destruct z as [| m | m]; [reflexivity | |];
      (destruct (shl_align m 0 _) as [mz ez] eqn:Ea;
       apply shl_align_bounds in Ea;
       pose proof (digits_le (Z.pos m) 1023 ltac:(lia) ltac:(lia) ltac:(lia));
       apply binary_round_aux_finite; lia). }
  rewrite Hfin. eexists. split; [reflexivity | exact Hfin].
Qed.

(** A mantissa of exactly 53 digits within the exponent range is already
    in the format: the alignment does not move it. *)
Lemma shr_fexp_canonical (p : positive) (e : Z) :
  digits (Z.pos p) = 53 -> -1074 <= e ->
  shr_fexp prec emax (Z.pos p) e loc_Exact =
  (Build_shr_record (Z.pos p) false false, e).
Proof.
  intros Hd He. unfold shr_fexp. rewrite Hd, fexp_eq.
  replace (Z.max (53 + e - 53) (-1074) - e) with 0 by lia. reflexivity.
Qed.

Lemma binary_round_aux_canonical (s : bool) (p : positive) (e : Z) :
  digits (Z.pos p) = 53 -> -1074 <= e <= 971 ->
  binary_round_aux prec emax s (Z.pos p) e loc_Exact = S754_finite s p e.
Proof.
  intros Hd He. unfold binary_round_aux.
  rewrite shr_fexp_canonical by (try exact Hd; lia).
  cbn [shr_m loc_of_shr_record round_nearest_even].
  rewrite shr_fexp_canonical by (try exact Hd; lia).
  cbn [shr_m].
  destruct (Z.leb_spec e (emax - prec)) as [| Hbad]; [reflexivity |].
  unfold emax, prec in Hbad. lia.
Qed.

(** Such a mantissa followed by one more zero digit is brought back to 53
    digits without loss. *)
Lemma binary_round_aux_one_zero (s : bool) (p : positive) (e : Z) :
  digits (Z.pos p) = 53 -> -1074 <= e <= 971 ->
  binary_round_aux prec emax s (Z.pos p~0) (e - 1) loc_Exact =
  S754_finite s p e.
Proof.
  intros Hd He.
  assert (Hd0 : digits (Z.pos p~0) = 54).
  { cbn [Zdigits2 digits2_pos] in *. lia. }
  assert (Hsh : shr_fexp prec emax (Z.pos p~0) (e - 1) loc_Exact =
                (Build_shr_record (Z.pos p) false false, e)).
  { unfold shr_fexp. rewrite Hd0, fexp_eq.
    replace (Z.max (54 + (e - 1) - 53) (-1074) - (e - 1)) with 1 by lia.
    cbn [shr shr_record_of_loc iter_pos shr_1 orb]. f_equal. lia. }
  unfold binary_round_aux. rewrite Hsh.
  cbn [shr_m loc_of_shr_record round_nearest_even].
  rewrite shr_fexp_canonical by (try exact Hd; lia).
  cbn [shr_m].
  destruct (Z.leb_spec e (emax - prec)) as [| Hbad]; [reflexivity |].
  unfold emax, prec in Hbad. lia.
Qed.

(** Dividing an integer of at most 53 digits by one is exact. *)
Lemma div_by_one_core (m : positive) :
  Z.pos m < 2 ^ 53 ->
  exists p : positive,
    SFdiv_core_binary prec emax (Z.pos m) 0 1 0 =
      (Z.pos p~0, digits (Z.pos m) - 54, loc_Exact) /\
    Z.pos p = Z.pos m * 2 ^ (53 - digits (Z.pos m)) /\
    digits (Z.pos p) = 53.
Proof.
  intros Hm.
  pose proof (digits_le (Z.pos m) 53 ltac:(lia) ltac:(lia) Hm) as Hd53.
  pose proof (digits_lower (Z.pos m) ltac:(lia)) as Hlo.
  pose proof (digits_gt (Z.pos m) ltac:(lia)) as Hhi.
  assert (Hd1 : 1 <= digits (Z.pos m)) by (cbn [Zdigits2]; lia).
  remember (digits (Z.pos m)) as d eqn:Ed.
  assert (Hpow : 0 < 2 ^ (53 - d)) by (apply Z.pow_pos_nonneg; lia).
  assert (Hsplit : 2 ^ 52 = 2 ^ (d - 1) * 2 ^ (53 - d)).
  { rewrite <- Z.pow_add_r by lia. f_equal. lia. }
  assert (Hsplit' : 2 ^ 53 = 2 ^ d * 2 ^ (53 - d)).
  { rewrite <- Z.pow_add_r by lia. f_equal. lia. }
  exists (Z.to_pos (Z.pos m * 2 ^ (53 - d))).
  assert (Hp : Z.pos (Z.to_pos (Z.pos m * 2 ^ (53 - d))) = Z.pos m * 2 ^ (53 - d))
    by (apply Z2Pos.id; nia).
  split; [| split; [exact Hp |]].
  - unfold SFdiv_core_binary. rewrite <- Ed.
    change (Zdigits2 1) with 1. rewrite fexp_eq.
    replace (Z.min (Z.max (d + 0 - (1 + 0) - 53) (-1074)) (0 - 0))
      with (d - 54) by lia.
    destruct (0 - 0 - (d - 54)) as [| sh | sh] eqn:Es; try lia.
    rewrite Z.shiftl_mul_pow2 by lia.
    pose proof (Z_div_mod (Z.pos m * 2 ^ Z.pos sh) 1 ltac:(lia)) as Hdiv.
    destruct (Z.div_eucl (Z.pos m * 2 ^ Z.pos sh) 1) as [q r].
    destruct Hdiv as [Hq Hr].
    assert (r = 0) by lia. subst r.
    assert (q = Z.pos (Z.to_pos (Z.pos m * 2 ^ (53 - d)))~0).
    { change (Z.pos (Z.to_pos (Z.pos m * 2 ^ (53 - d)))~0)
        with (2 * Z.pos (Z.to_pos (Z.pos m * 2 ^ (53 - d)))).
      rewrite Hp.
      replace (Z.pos sh) with (1 + (53 - d)) in Hq by lia.
      rewrite Z.pow_add_r in Hq by lia. change (2 ^ 1) with 2 in Hq. lia. }
    subst q. reflexivity.
  - rewrite Hp. apply digits_unique; [lia |]. nia.
Qed.

Lemma int_truediv_one_exact (x : Z) :
  Z.abs x < 2 ^ 53 ->
  exists f : float, int_truediv x 1 = Returned f /\ float_eq_int f x = true.
Proof.
  intros Hx. unfold int_truediv. cbn [Z.eqb int_exact].
  destruct x as [| m | m]; cbn [int_exact fdiv SFdiv].
  - eexists. split; reflexivity.
  - destruct (div_by_one_core m ltac:(lia)) as (p & Ec & Hp & Hd).
    rewrite Ec.
    pose proof (digits_le (Z.pos m) 53 ltac:(lia) ltac:(lia) ltac:(lia)).
    assert (1 <= digits (Z.pos m)) by (cbn [Zdigits2]; lia).
    replace (digits (Z.pos m) - 54) with (digits (Z.pos m) - 53 - 1) by lia.
    rewrite binary_round_aux_one_zero by (try exact Hd; lia).
    cbn [is_finite]. eexists. split; [reflexivity |].
    cbn [float_eq_int xorb].
    destruct (Z.leb_spec 0 (digits (Z.pos m) - 53)).
    + assert (E53 : digits (Z.pos m) = 53) by lia.
      rewrite Hp, E53. apply Z.eqb_eq. cbn. lia.
    + rewrite Hp. apply Z.eqb_eq. f_equal. f_equal. lia.
  - destruct (div_by_one_core m ltac:(lia)) as (p & Ec & Hp & Hd).
    rewrite Ec.
    pose proof (digits_le (Z.pos m) 53 ltac:(lia) ltac:(lia) ltac:(lia)).
    assert (1 <= digits (Z.pos m)) by (cbn [Zdigits2]; lia).
    replace (digits (Z.pos m) - 54) with (digits (Z.pos m) - 53 - 1) by lia.
    rewrite binary_round_aux_one_zero by (try exact Hd; lia).
    cbn [is_finite]. eexists. split; [reflexivity |].
    cbn [float_eq_int xorb].
    change (Z.neg p) with (- Z.pos p). change (Z.neg m) with (- Z.pos m).
    destruct (Z.leb_spec 0 (digits (Z.pos m) - 53)).
    + assert (E53 : digits (Z.pos m) = 53) by lia.
      rewrite Hp, E53. apply Z.eqb_eq. cbn. lia.
    + rewrite Hp. apply Z.eqb_eq.
      replace (- (digits (Z.pos m) - 53)) with (53 - digits (Z.pos m)) by lia.
      ring.
Qed.

(** [float(z)] is exact for an integer of at most 53 digits. *)
Lemma of_Z_exact (z : Z) :
  z <> 0 -> Z.abs z < 2 ^ 53 ->
  exists (p : positive) (e : Z),
    of_Z z = S754_finite (z <? 0) p e /\ float_eq_int (of_Z z) z = true.
Proof.
  intros Hz Hlt.
  assert (Hcore : forall (s : bool) (m : positive),
             Z.pos m < 2 ^ 53 ->
             exists (p : positive) (e : Z),
               binary_round prec emax s m 0 = S754_finite s p e /\
               -53 < e <= 0 /\ Z.pos p = Z.pos m * 2 ^ (- e)).
  { intros s m Hm.
    pose proof (digits_le (Z.pos m) 53 ltac:(lia) ltac:(lia) Hm) as Hd53.
    pose proof (digits_lower (Z.pos m) ltac:(lia)) as Hlo.
    pose proof (digits_gt (Z.pos m) ltac:(lia)) as Hhi.
    assert (Hd1 : 1 <= digits (Z.pos m)) by (cbn [Zdigits2]; lia).
    unfold binary_round, shl_align. rewrite fexp_eq.
    change (Z.pos (digits2_pos m)) with (digits (Z.pos m)).
    remember (digits (Z.pos m)) as d eqn:Ed.
    destruct (Z.max (d + 0 - 53) (-1074) - 0) as [| k | k] eqn:Ek; try lia.
    - assert (d = 53) by lia. subst d.
      rewrite binary_round_aux_canonical by (try lia; congruence).
      exists m, 0. repeat split; lia.
    - assert (Hk : Z.pos k = 53 - d) by lia.
      assert (Hpow : 0 < 2 ^ Z.pos k) by (apply Z.pow_pos_nonneg; lia).
      rewrite binary_round_aux_canonical.
      + exists (Pos.iter xO m k), (Z.max (d + 0 - 53) (-1074)).
        split; [reflexivity |]. split; [lia |].
        rewrite iter_xO_value. f_equal. f_equal. lia.
      + apply digits_unique; [lia |]. rewrite iter_xO_value.
        replace (2 ^ (53 - 1)) with (2 ^ (d - 1) * 2 ^ Z.pos k)
          by (rewrite <- Z.pow_add_r by lia; f_equal; lia).
        replace (2 ^ 53) with (2 ^ d * 2 ^ Z.pos k)
          by (rewrite <- Z.pow_add_r by lia; f_equal; lia).
        nia.
      + lia. }
  unfold of_Z, binary_normalize.
  destruct z as [| m | m]; [contradiction | |];
    [destruct (Hcore false m ltac:(lia)) as (p & e & Er & He & Hp)
    |destruct (Hcore true m ltac:(lia)) as (p & e & Er & He & Hp)];
    rewrite Er; exists p, e;
    (split; [reflexivity |]); cbn [float_eq_int];
    destruct (Z.leb_spec 0 e); apply Z.eqb_eq.
  - replace e with 0 in * by lia. cbn in Hp |- *. lia.
  - exact Hp.
  - replace e with 0 in * by lia. cbn in Hp |- *. lia.
  - change (Z.neg p) with (- Z.pos p). change (Z.neg m) with (- Z.pos m).
    rewrite Hp. ring.
Qed.

End FloatFacts.

(** ** Averaging *)

Section Averaging.

Lemma transport_reads_succ (n : nat) (e : env) :
  transport_reads (S n) e =
  (fst (read_raw e) ::
     fst (transport_reads n (snd (time_sleep 10 (snd (read_raw e))))),
   snd (transport_reads n (snd (time_sleep 10 (snd (read_raw e)))))).
Proof.
  cbn [transport_reads].
  destruct (read_raw e) as [r e1]. cbn [fst snd].
  destruct (time_sleep 10 e1) as [u e2]. cbn [snd].
  now destruct (transport_reads n e2).
Qed.

Lemma valid_values_cons (r : outcome (option Z)) (rs : list (outcome (option Z))) :
  valid_values (r :: rs) =
  match r with
  | Returned (Some v) => v :: valid_values rs
  | _ => valid_values rs
  end.
Proof. unfold valid_values. cbn [flat_map]. now destruct r as [[v |] | |]. Qed.

(** Each of the [n] reads returns a sample in range or times out, and the
    loop of [read_average] collects exactly the samples. *)
Lemma read_loop_collects (n : nat) : forall (values : list Z) (e : env),
  read_loop n values e =
    (Returned (values ++ valid_values (fst (transport_reads n e))),
     snd (transport_reads n e)) /\
  length (fst (transport_reads n e)) = n /\
  Forall (fun r => timed_out r \/ exists v, r = Returned (Some v) /\ in_range v)
         (fst (transport_reads n e)).
Proof.
  induction n as [| n IH]; intros values e.
  - cbn. rewrite app_nil_r. repeat split. constructor.
  - rewrite transport_reads_succ. cbn [fst snd length].
    destruct (read_raw_returns e) as (r & e1 & Er & Hr).
    cbn [read_loop bind IO_Monad]. rewrite Er.
    cbn [fst snd time_sleep].
    match goal with
    | |- context [read_loop n ?vs ?e2] =>
        destruct (IH vs e2) as (El & Hlen & Hall)
    end.
    rewrite El, valid_values_cons.
    split; [| split].
    + destruct r as [v |]; [rewrite <- app_assoc |]; reflexivity.
    + now rewrite Hlen.
    + constructor; [| exact Hall].
      destruct r as [v |]; [right; now exists v | left; reflexivity].
Qed.

Lemma valid_values_in_range (rs : list (outcome (option Z))) :
  Forall (fun r => timed_out r \/ exists v, r = Returned (Some v) /\ in_range v) rs ->
  Forall in_range (valid_values rs).
Proof.
  induction 1 as [| r rs Hr _ IH]; [constructor |].
  rewrite valid_values_cons.
  destruct Hr as [-> | (v & -> & Hv)]; [exact IH | now constructor].
Qed.

Lemma valid_values_nil (rs : list (outcome (option Z))) :
  Forall (fun r => timed_out r \/ exists v, r = Returned (Some v)) rs ->
  (valid_values rs = [] <-> Forall timed_out rs).
Proof.
  induction 1 as [| r rs Hr _ IH]; [split; constructor |].
  rewrite valid_values_cons.
  destruct Hr as [-> | (v & ->)].
  - rewrite IH. split; [now constructor | now inversion 1].
  - split; [discriminate | inversion 1 as [| ? ? Hbad]; discriminate Hbad].
Qed.

Lemma sum_shift (values : list Z) : forall a : Z,
  fold_left Z.add values a = a + sum values.
Proof.
  unfold sum. induction values as [| v rest IH]; intros a; cbn [fold_left].
  - lia.
  - rewrite IH, (IH (0 + v)). lia.
Qed.

Lemma sum_cons (v : Z) (rest : list Z) : sum (v :: rest) = v + sum rest.
Proof. unfold sum at 1. cbn [fold_left]. rewrite sum_shift. lia. Qed.

Lemma sum_bound (values : list Z) :
  Forall in_range values -> Z.abs (sum values) <= 8388608 * len values.
Proof.
  unfold len. induction 1 as [| v rest Hv _ IH].
  - cbn. lia.
  - rewrite sum_cons. cbn [length]. unfold in_range in Hv. lia.
Qed.

(** The mean of a non-empty list of samples is a float: the division
    raises nothing. *)
Lemma mean_returns (values : list Z) :
  values <> [] -> Forall in_range values ->
  exists m : float, mean values = Returned m /\ is_finite m = true.
Proof.
  intros Hne Hall. unfold mean.
  assert (Hlen : 0 < len values).
  { unfold len. destruct values; [contradiction | cbn [length]; lia]. }
  apply int_truediv_returns; [lia |].
  pose proof (sum_bound values Hall).
  assert (8388608 <= 2 ^ 1000) by (apply Z.leb_le; vm_compute; reflexivity).
  nia.
Qed.

Lemma read_average_run (n : nat) (e : env) :
  read_average n e =
  (match valid_values (fst (transport_reads n e)) with
   | [] => Returned None
   | vs => obind (mean vs) (fun m => Returned (Some m))
   end,
   snd (transport_reads n e)).
Proof.
  unfold read_average. cbn [bind IO_Monad].
  destruct (read_loop_collects n [] e) as (El & _ & _).
  rewrite El. cbn [app].
  destruct (valid_values (fst (transport_reads n e))) as [| v vs];
    [reflexivity |].
  cbn [eval ret IO_Monad]. unfold mean.
  now destruct (int_truediv (sum (v :: vs)) (len (v :: vs))).
Qed.

End Averaging.

Section AveragingCases.

Variables (n : nat) (e : env).

Let rs := fst (transport_reads n e).
Let e' := snd (transport_reads n e).
Let vs := valid_values rs.

Lemma reads_shape :
  length rs = n /\
  Forall (fun r => timed_out r \/ exists v, r = Returned (Some v)) rs /\
  Forall in_range vs.
Proof.
  destruct (read_loop_collects n [] e) as (_ & Hlen & Hall).
  split; [exact Hlen |]. split.
  - eapply Forall_impl; [| exact Hall].
    intros r [H | (v & H & _)]; [now left | right; now exists v].
  - now apply valid_values_in_range.
Qed.

Lemma read_average_none : vs = [] -> read_average n e = (Returned None, e').
Proof.
  intros Hvs. rewrite read_average_run. fold rs vs. now rewrite Hvs.
Qed.

Lemma read_average_some :
  vs <> [] ->
  exists m : float,
    mean vs = Returned m /\ is_finite m = true /\
    read_average n e = (Returned (Some m), e').
Proof.
  intros Hvs.
  destruct reads_shape as (_ & _ & Hrange).
  destruct (mean_returns vs Hvs Hrange) as (m & Em & Hfin).
  exists m. split; [exact Em |]. split; [exact Hfin |].
  rewrite read_average_run. fold rs vs. fold e'. clearbody vs.
  destruct vs; [contradiction |]. now rewrite Em.
Qed.

Lemma read_average_none_iff :
  fst (read_average n e) = Returned None <-> vs = [].
Proof.
  split.
  - intros Hnone. destruct vs as [| v rest] eqn:Evs; [reflexivity |].
    destruct read_average_some as (m & _ & _ & Er); [now rewrite Evs |].
    rewrite Er in Hnone. discriminate Hnone.
  - intros Hvs. now rewrite read_average_none.
Qed.

End AveragingCases.

(** C4. [read_average n] makes [n] transport reads, keeps the values of
    those that did not time out and returns their arithmetic mean; it
    returns nothing exactly when all [n] reads timed out. When the reads
    that did not time out gave 10, 12 and 11, the result is 11.0. *)
Theorem read_average_mean (n : nat) (e : env) :
  let rs := fst (transport_reads n e) in
  let e' := snd (transport_reads n e) in
  let vs := valid_values rs in
  length rs = n /\
  Forall (fun r => timed_out r \/ exists v, r = Returned (Some v)) rs /\
  (vs <> [] ->
   exists m : float,
     mean vs = Returned m /\ read_average n e = (Returned (Some m), e')) /\
  (fst (read_average n e) = Returned None <-> Forall timed_out rs) /\
  (vs = [10; 12; 11] -> fst (read_average n e) = Returned (Some (of_Z 11))).
Proof.
  intros rs e' vs.
  destruct (reads_shape n e) as (Hlen & Hshape & _).
  split; [exact Hlen |]. split; [exact Hshape |]. split; [| split].
  - intros Hvs. destruct (read_average_some n e Hvs) as (m & Em & _ & Er).
    now exists m.
  - rewrite read_average_none_iff. now apply valid_values_nil.
  - intros Hvs.
    destruct (read_average_some n e) as (m & Em & _ & Er).
    { fold rs vs. rewrite Hvs. discriminate. }
    fold rs vs in Em. rewrite Hvs in Em.
    rewrite Er. cbn [fst].
    assert (Ev : mean [10; 12; 11] = Returned (of_Z 11)) by (vm_compute; reflexivity).
    congruence.
Qed.

Lemma read_average_mean_witness :
  length (fst (transport_reads 5 two_timeouts)) = 5%nat /\
  length (filter (fun r => match r with Returned None => true | _ => false end)
            (fst (transport_reads 5 two_timeouts))) = 2%nat /\
  fst (read_average 5 two_timeouts) = Returned (Some (of_Z 11)).
Proof.
  split; [exact (proj1 (read_average_mean 5 two_timeouts)) |].
  split; [vm_compute; reflexivity |].
  apply (proj2 (proj2 (proj2 (proj2 (read_average_mean 5 two_timeouts))))).
  vm_compute. reflexivity.
Defined.

(** ** The calibration engine *)

Section Calibration.

Lemma as_float_fits (x : num) :
  fits_double x ->
  exists f : float, as_float x = Returned f /\ fis_zero f = is_zero x.
Proof.
  destruct x as [z | f]; cbn [fits_double as_float is_zero]; intros Hx.
  - destruct (Z.eq_dec z 0) as [-> | Hz].
    + eexists. split; reflexivity.
    + destruct (of_Z_exact z Hz Hx) as (p & ex & E & _).
      unfold float_of_int. rewrite E. cbn [is_finite fis_zero].
      eexists. split; [reflexivity |].
      symmetry. now apply Z.eqb_neq.
  - eexists. split; reflexivity.
Qed.

Lemma tare_run (times : nat) (g : globals) (e : env) :
  tare times g e =
  match read_average times e with
  | (Returned (Some a), e') =>
      (Returned true, mkGlobals (Float a) (SCALE g), e')
  | (Returned None, e') => (Returned false, g, e')
  | (Raised x, e') => (Raised x, g, e')
  | (OutOfFuel, e') => (OutOfFuel, g, e')
  end.
Proof.
  unfold tare, io. cbn [bind Prog_Monad].
  destruct (read_average times e) as [[[a |] | x |] e']; reflexivity.
Qed.

Lemma calibrate_run (k : num) (times : nat) (g : globals) (e : env) :
  calibrate k times g e =
  match read_average times e with
  | (Returned (Some a), e') =>
      match obind (sub (Float a) (OFFSET g)) (fun d => truediv d k) with
      | Returned s => (Returned true, mkGlobals (OFFSET g) s, e')
      | Raised x => (Raised x, g, e')
      | OutOfFuel => (OutOfFuel, g, e')
      end
  | (Returned None, e') => (Returned false, g, e')
  | (Raised x, e') => (Raised x, g, e')
  | (OutOfFuel, e') => (OutOfFuel, g, e')
  end.
Proof.
  unfold calibrate, io, eval, get_OFFSET. cbn [bind Prog_Monad].
  destruct (read_average times e) as [[[a |] | x |] e']; try reflexivity.
  destruct (sub (Float a) (OFFSET g)) as [d | x |]; try reflexivity.
  all: cbn [obind]; destruct (truediv d k); reflexivity.
Qed.

Lemma get_weight_run (g : globals) (e : env) :
  get_weight g e =
  match read_raw e with
  | (Returned (Some r), e') =>
      (obind (sub (Int r) (OFFSET g)) (fun d =>
       obind (truediv d (SCALE g)) (fun w => Returned (Some w))), g, e')
  | (Returned None, e') => (Returned None, g, e')
  | (Raised x, e') => (Raised x, g, e')
  | (OutOfFuel, e') => (OutOfFuel, g, e')
  end.
Proof.
  unfold get_weight, io, eval, get_OFFSET, get_SCALE. cbn [bind Prog_Monad].
  destruct (read_raw e) as [[[r |] | x |] e']; try reflexivity.
  destruct (sub (Int r) (OFFSET g)) as [d | x |]; try reflexivity.
  all: cbn [obind]; destruct (truediv d (SCALE g)); reflexivity.
Qed.

End Calibration.

(** C5. [tare] sets the offset to the mean of the valid samples of its
    window and fails exactly when there is no valid sample; for the samples
    100, 102, 98, 100 the offset becomes 100.0. *)
Theorem tare_sets_offset (times : nat) (g : globals) (e : env) :
  let rs := fst (transport_reads times e) in
  let e' := snd (transport_reads times e) in
  let vs := valid_values rs in
  (vs <> [] ->
   exists m : float,
     mean vs = Returned m /\
     tare times g e = (Returned true, mkGlobals (Float m) (SCALE g), e')) /\
  (vs = [] -> tare times g e = (Returned false, g, e')) /\
  (fst (fst (tare times g e)) = Returned false <-> vs = []) /\
  (vs = [100; 102; 98; 100] ->
   fst (fst (tare times g e)) = Returned true /\
   OFFSET (snd (fst (tare times g e))) = Float (of_Z 100)).
Proof.
  intros rs e' vs.
  assert (Hsome : vs <> [] ->
            exists m : float,
              mean vs = Returned m /\
              tare times g e = (Returned true, mkGlobals (Float m) (SCALE g), e')).
  { intros Hvs. destruct (read_average_some times e Hvs) as (m & Em & _ & Er).
    exists m. split; [exact Em |]. now rewrite tare_run, Er. }
  assert (Hnone : vs = [] -> tare times g e = (Returned false, g, e')).
  { intros Hvs. now rewrite tare_run, (read_average_none times e Hvs). }
  split; [exact Hsome |]. split; [exact Hnone |]. split; [split |].
  - intros Hfail. destruct vs as [| v rest] eqn:Evs; [reflexivity |].
    destruct Hsome as (m & _ & Et); [discriminate |].
    rewrite Et in Hfail. discriminate Hfail.
  - intros Hvs. now rewrite (Hnone Hvs).
  - intros Hvs. destruct Hsome as (m & Em & Et); [rewrite Hvs; discriminate |].
    rewrite Hvs in Em. rewrite Et. cbn [fst snd OFFSET].
    assert (Ev : mean [100; 102; 98; 100] = Returned (of_Z 100))
      by (vm_compute; reflexivity).
    split; [reflexivity | congruence].
Qed.

Lemma tare_sets_offset_witness :
  valid_values (fst (transport_reads 4 empty_pan)) = [100; 102; 98; 100] /\
  OFFSET (snd (fst (tare 4 initial_globals empty_pan))) = Float hundred.
Proof.
  assert (Hvs : valid_values (fst (transport_reads 4 empty_pan)) = [100; 102; 98; 100])
    by (vm_compute; reflexivity).
  split; [exact Hvs |].
  exact (proj2 (proj2 (proj2 (proj2 (tare_sets_offset 4 initial_globals empty_pan))) Hvs)).
Defined.

(** C10. When the averaging step yields no valid sample, [tare] returns
    failure and leaves the offset as it was, and [calibrate] returns failure
    and leaves the scale as it was. *)
Theorem failure_keeps_calibration (k : num) (times : nat) (g : globals) (e : env) :
  fst (read_average times e) = Returned None ->
  (fst (fst (tare times g e)) = Returned false /\
   OFFSET (snd (fst (tare times g e))) = OFFSET g /\
   snd (fst (tare times g e)) = g) /\
  (fst (fst (calibrate k times g e)) = Returned false /\
   SCALE (snd (fst (calibrate k times g e))) = SCALE g /\
   snd (fst (calibrate k times g e)) = g).
Proof.
  intros Hnone. rewrite tare_run, calibrate_run.
  destruct (read_average times e) as [r e']. cbn [fst] in Hnone. subst r.
  repeat split.
Qed.

Lemma failure_keeps_calibration_witness :
  fst (fst (tare 1 (mkGlobals (Float hundred) (Int 1)) unplugged)) = Returned false /\
  snd (fst (tare 1 (mkGlobals (Float hundred) (Int 1)) unplugged)) =
    mkGlobals (Float hundred) (Int 1) /\
  fst (fst (calibrate (Float five_hundred) 1
              (mkGlobals (Float hundred) (Int 1)) unplugged)) = Returned false /\
  snd (fst (calibrate (Float five_hundred) 1
              (mkGlobals (Float hundred) (Int 1)) unplugged)) =
    mkGlobals (Float hundred) (Int 1).
Proof.
  assert (Hnone : fst (read_average 1 unplugged) = Returned None)
    by (vm_compute; reflexivity).
  destruct (failure_keeps_calibration (Float five_hundred) 1
              (mkGlobals (Float hundred) (Int 1)) unplugged Hnone)
    as ((T1 & _ & T2) & (C1 & _ & C2)).
  repeat split; assumption.
Defined.

Section CalibrationCases.

Lemma read_raw_in_range (e e' : env) (x : Z) :
  read_raw e = (Returned (Some x), e') -> in_range x.
Proof.
  intros Er. destruct (read_raw_returns e) as (r & e1 & Er' & Hr).
  rewrite Er in Er'. injection Er' as <- <-. exact Hr.
Qed.

Lemma float_of_int_sample (x : Z) :
  in_range x -> float_of_int x = Returned (of_Z x).
Proof.
  intros Hx.
  assert (H24 : 8388608 < 2 ^ 1023) by (apply Z.ltb_lt; vm_compute; reflexivity).
  destruct (float_of_int_returns x) as (f & Ef & _).
  { unfold in_range in Hx. lia. }
  unfold float_of_int in *.
  destruct (is_finite (of_Z x)); [reflexivity | discriminate Ef].
Qed.

(** Subtracting a calibration value from a sample raises nothing. *)
Lemma sub_sample_returns (x : Z) (offset : num) :
  in_range x -> fits_double offset ->
  exists d : num, sub (Int x) offset = Returned d /\
    match d with
    | Int a => Z.abs a < 2 ^ 54
    | Float _ => True
    end.
Proof.
  intros Hx Ho. destruct offset as [o | fo]; cbn [sub fits_double] in *.
  - eexists. split; [reflexivity |]. cbn beta iota.
    unfold in_range in Hx.
    assert (2 ^ 54 = 2 * 2 ^ 53) by reflexivity.
    assert (8388608 < 2 ^ 53) by reflexivity. lia.
  - cbn [as_float]. rewrite float_of_int_sample by exact Hx.
    eexists. split; [reflexivity | exact I].
Qed.

(** Dividing such a difference by a non-zero calibration value raises
    nothing. *)
Lemma truediv_returns (d scale : num) :
  match d with
  | Int a => Z.abs a < 2 ^ 54
  | Float _ => True
  end ->
  fits_double scale -> is_zero scale = false ->
  exists w : num, truediv d scale = Returned w.
Proof.
  intros Hd Hs Hnz.
  assert (H54 : 2 ^ 54 < 2 ^ 1000) by (apply Z.ltb_lt; vm_compute; reflexivity).
  assert (H1000 : 2 ^ 1000 < 2 ^ 1023) by (apply Z.ltb_lt; vm_compute; reflexivity).
  destruct d as [a | fd], scale as [s | fs];
    cbn [truediv as_float obind fits_double is_zero] in *.
  - apply Z.eqb_neq in Hnz.
    destruct (int_truediv_returns a s Hnz) as (q & Eq' & _); [lia |].
    rewrite Eq'. eexists. reflexivity.
  - destruct (float_of_int_returns a) as (f & Ef & _); [lia |].
    rewrite Ef. cbn [obind]. rewrite Hnz. eexists. reflexivity.
  - destruct (as_float_fits (Int s) Hs) as (fk & Ek & Hk).
    cbn [as_float is_zero] in Ek, Hk. rewrite Ek. cbn [obind].
    rewrite Hk, Hnz. eexists. reflexivity.
  - rewrite Hnz. eexists. reflexivity.
Qed.

End CalibrationCases.

(** C6. With a non-zero scale the weight conversion returns
    [(x - offset) / scale] for the sample [x] just read, and leaves the
    calibration values alone; with the start-up values, offset 0 and scale
    1, the result equals the raw count [x]. Offset and scale are floats, or
    ints that a double holds exactly. *)
Theorem get_weight_conversion (g : globals) (e e' : env) (x : Z) :
  read_raw e = (Returned (Some x), e') ->
  (fits_double (OFFSET g) -> fits_double (SCALE g) -> is_zero (SCALE g) = false ->
   exists d w : num,
     sub (Int x) (OFFSET g) = Returned d /\
     truediv d (SCALE g) = Returned w /\
     get_weight g e = (Returned (Some w), g, e')) /\
  (forall fo fs : float,
     OFFSET g = Float fo -> SCALE g = Float fs -> fis_zero fs = false ->
     get_weight g e =
       (Returned (Some (Float (fdiv (fsub (of_Z x) fo) fs))), g, e')) /\
  (g = initial_globals ->
   exists f : float,
     get_weight g e = (Returned (Some (Float f)), g, e') /\
     float_eq_int f x = true).
Proof.
  intros Er. pose proof (read_raw_in_range e e' x Er) as Hx.
  rewrite get_weight_run, Er.
  split; [| split].
  - intros Ho Hs Hnz.
    destruct (sub_sample_returns x (OFFSET g) Hx Ho) as (d & Ed & Hd).
    destruct (truediv_returns d (SCALE g) Hd Hs Hnz) as (w & Ew).
    exists d, w. rewrite Ed. cbn [obind]. rewrite Ew. repeat split.
  - intros fo fs -> -> Hnz. cbn [sub as_float].
    rewrite float_of_int_sample by exact Hx.
    cbn [obind truediv as_float]. now rewrite Hnz.
  - intros ->. cbn [initial_globals OFFSET SCALE sub truediv obind].
    rewrite Z.sub_0_r.
    destruct (int_truediv_one_exact x) as (f & Ef & Hf).
    { unfold in_range in Hx. assert (8388608 < 2 ^ 53) by reflexivity. lia. }
    rewrite Ef. exists f. split; [reflexivity | exact Hf].
Qed.

Lemma get_weight_conversion_witness :
  exists f : float,
    fst (fst (get_weight initial_globals loaded_pan)) = Returned (Some (Float f)) /\
    float_eq_int f 600 = true.
Proof.
  assert (Er : read_raw loaded_pan = (Returned (Some 600), snd (read_raw loaded_pan)))
    by (vm_compute; reflexivity).
  destruct (proj2 (proj2 (get_weight_conversion initial_globals loaded_pan _ 600 Er))
              eq_refl) as (f & Eg & Hf).
  exists f. rewrite Eg. split; [reflexivity | exact Hf].
Defined.

(** C3, as the code has it. [calibrate] returns failure exactly when the
    window gave no valid sample. With at least one valid sample, a zero
    known weight makes it raise [ZeroDivisionError], the scale staying as it
    was; any other known weight makes it set the scale to
    [(mean - offset) / known_weight_grams] and return success, as far as that
    factor is not zero. Offset and known weight are floats, or ints that a
    double holds exactly. *)
Theorem calibrate_behaviour (k : num) (times : nat) (g : globals) (e : env) :
  let rs := fst (transport_reads times e) in
  let e' := snd (transport_reads times e) in
  let vs := valid_values rs in
  (fst (fst (calibrate k times g e)) = Returned false <-> vs = []) /\
  (vs = [] -> calibrate k times g e = (Returned false, g, e')) /\
  (vs <> [] -> fits_double (OFFSET g) -> fits_double k ->
   exists (m : float) (d : num),
     mean vs = Returned m /\
     sub (Float m) (OFFSET g) = Returned d /\
     (is_zero k = true ->
      calibrate k times g e = (Raised ZeroDivisionError, g, e')) /\
     (is_zero k = false ->
      exists s : num,
        truediv d k = Returned s /\
        (is_zero s = false ->
         calibrate k times g e =
           (Returned true, mkGlobals (OFFSET g) s, e')))).
Proof.
  intros rs e' vs.
  assert (Hnone : vs = [] -> calibrate k times g e = (Returned false, g, e')).
  { intros Hvs. now rewrite calibrate_run, (read_average_none times e Hvs). }
  split; [split | split; [exact Hnone |]].
  - intros Hfail. destruct vs as [| v rest] eqn:Evs; [reflexivity |].
    destruct (read_average_some times e) as (m & _ & _ & Er).
    { fold rs vs. rewrite Evs. discriminate. }
    rewrite calibrate_run, Er in Hfail.
    destruct (obind (sub (Float m) (OFFSET g)) (fun d => truediv d k));
      discriminate Hfail.
  - intros Hvs. now rewrite (Hnone Hvs).
  - intros Hvs Ho Hk.
    destruct (read_average_some times e Hvs) as (m & Em & _ & Er).
    destruct (as_float_fits (OFFSET g) Ho) as (fo & Eo & _).
    destruct (as_float_fits k Hk) as (fk & Ek & Hz).
    exists m, (Float (fsub m fo)).
    split; [exact Em |].
    assert (Ed : sub (Float m) (OFFSET g) = Returned (Float (fsub m fo))).
    { cbn [sub as_float obind]. now rewrite Eo. }
    split; [exact Ed |].
    rewrite calibrate_run, Er, Ed. cbn [obind truediv as_float].
    rewrite Ek. cbn [obind]. rewrite Hz.
    split; intros Hk0; rewrite Hk0; [reflexivity |].
    eexists. split; reflexivity.
Qed.

Lemma calibrate_behaviour_witness :
  exists s : num,
    calibrate (Float five_hundred) 1 (mkGlobals (Float hundred) (Int 1)) loaded_pan =
      (Returned true, mkGlobals (Float hundred) s,
       snd (transport_reads 1 loaded_pan)) /\
    eq_int s 1 = true.
Proof.
  destruct (calibrate_behaviour (Float five_hundred) 1
              (mkGlobals (Float hundred) (Int 1)) loaded_pan)
    as (_ & _ & H).
  destruct H as (m & d & Em & Ed & _ & Hok).
  { vm_compute. discriminate. }
  { exact I. }
  { exact I. }
  destruct (Hok eq_refl) as (s & Es & Hs).
  vm_compute in Em. injection Em as <-.
  vm_compute in Ed. injection Ed as <-.
  vm_compute in Es. injection Es as <-.
  eexists. split; [apply Hs; reflexivity | reflexivity].
Defined.

(** With one valid sample and a known weight of zero, [calibrate] raises
    [ZeroDivisionError]: it does not return a failure result. *)
Lemma calibrate_zero_weight_raises :
  is_zero (Float zero) = true /\
  valid_values (fst (transport_reads 1 loaded_pan)) = [600] /\
  fst (fst (calibrate (Float zero) 1 initial_globals loaded_pan)) =
    Raised ZeroDivisionError /\
  fst (fst (calibrate (Float zero) 1 initial_globals loaded_pan)) <>
    Returned false.
Proof.
  assert (E : fst (fst (calibrate (Float zero) 1 initial_globals loaded_pan)) =
              Raised ZeroDivisionError) by (vm_compute; reflexivity).
  repeat split; try (vm_compute; reflexivity); try exact E.
  rewrite E. discriminate.
Qed.

(** With a sample equal to the offset, the factor is zero, and [calibrate]
    stores it and reports success. *)
Lemma calibrate_zero_scale_accepted :
  fst (calibrate (Float five_hundred) 1
         (mkGlobals (Float (of_Z 600)) (Int 1)) loaded_pan) =
  (Returned true, mkGlobals (Float (of_Z 600)) (Float zero)).
Proof. vm_compute. reflexivity. Qed.

(** ** Statistics of a reading list *)

Section Statistics.

Lemma fold_min_least (rest : list Z) : forall x : Z,
  In (fold_left Z.min rest x) (x :: rest) /\
  forall r : Z, In r (x :: rest) -> fold_left Z.min rest x <= r.
Proof.
  induction rest as [| y rest IH]; intros x; cbn [fold_left].
  - split; [now left |]. intros r [<- | []]. lia.
  - destruct (IH (Z.min x y)) as [Hin Hle]. split.
    + destruct Hin as [Hin | Hin].
      * rewrite <- Hin. destruct (Z.min_spec x y) as [[_ ->] | [_ ->]];
          [now left | right; now left].
      * right; now right.
    + intros r [<- | [<- | Hr]].
      * specialize (Hle (Z.min x y) (or_introl eq_refl)). lia.
      * specialize (Hle (Z.min x y) (or_introl eq_refl)). lia.
      * apply Hle. now right.
Qed.

Lemma fold_max_greatest (rest : list Z) : forall x : Z,
  In (fold_left Z.max rest x) (x :: rest) /\
  forall r : Z, In r (x :: rest) -> r <= fold_left Z.max rest x.
Proof.
  induction rest as [| y rest IH]; intros x; cbn [fold_left].
  - split; [now left |]. intros r [<- | []]. lia.
  - destruct (IH (Z.max x y)) as [Hin Hle]. split.
    + destruct Hin as [Hin | Hin].
      * rewrite <- Hin. destruct (Z.max_spec x y) as [[_ ->] | [_ ->]];
          [right; now left | now left].
      * right; now right.
    + intros r [<- | [<- | Hr]].
      * specialize (Hle (Z.max x y) (or_introl eq_refl)). lia.
      * specialize (Hle (Z.max x y) (or_introl eq_refl)). lia.
      * apply Hle. now right.
Qed.

End Statistics.

(** C9. On a non-empty list of samples the statistics are the arithmetic
    mean, the least sample, the greatest sample, and a variance that is the
    greatest minus the least; for 10, 20, 30 they are 20.0, 10, 30 and 20. *)
Theorem stability_statistics :
  (forall readings : list Z,
     readings <> [] -> Forall in_range readings ->
     exists (m : float) (lo hi : Z),
       mean readings = Returned m /\
       stability_stats readings =
         Returned (Some (mkStatistics m lo hi (hi - lo))) /\
       In lo readings /\ (forall r : Z, In r readings -> lo <= r) /\
       In hi readings /\ (forall r : Z, In r readings -> r <= hi)) /\
  stability_stats [10; 20; 30] =
    Returned (Some (mkStatistics (of_Z 20) 10 30 20)).
Proof.
  split; [| vm_compute; reflexivity].
  intros readings Hne Hall.
  destruct (mean_returns readings Hne Hall) as (m & Em & _).
  destruct readings as [| x rest]; [contradiction |].
  exists m, (py_min x rest), (py_max x rest).
  split; [exact Em |]. split.
  - unfold stability_stats. unfold mean in Em. now rewrite Em.
  - destruct (fold_min_least rest x) as [Hmin1 Hmin2].
    destruct (fold_max_greatest rest x) as [Hmax1 Hmax2].
    repeat split; assumption.
Qed.

Lemma stability_statistics_witness :
  exists m : float,
    stability_stats [100; 102; 98; 100] =
      Returned (Some (mkStatistics m 98 102 4)) /\
    m = hundred.
Proof.
  destruct (proj1 stability_statistics [100; 102; 98; 100])
    as (m & lo & hi & Em & Es & _).
  { discriminate. }
  { repeat constructor; unfold in_range; lia. }
  exists m. split.
  - rewrite Es.
    assert (E : stability_stats [100; 102; 98; 100] =
                Returned (Some (mkStatistics hundred 98 102 4)))
      by (vm_compute; reflexivity).
    rewrite Es in E. injection E as _ -> ->. reflexivity.
  - assert (E : mean [100; 102; 98; 100] = Returned hundred)
      by (vm_compute; reflexivity).
    rewrite E in Em. now injection Em.
Defined.

(** * Further properties *)

(** ** The readiness wait, poll by poll *)

Section Waiting.

Lemma after_no_poll (e : env) : after_busy_polls e 0 = e.
Proof.
  unfold after_busy_polls. destruct e as [dl s c t]. cbn [data_line samples clock trace repeat].
  f_equal; [lia | lia | apply app_nil_r].
Qed.

Lemma after_one_more_poll (e : env) (k : nat) :
  after_busy_polls
    (mkEnv (data_line e) (S (samples e)) (clock e + 1)
       (trace e ++ [Input DOUT_PIN 1])) k =
  after_busy_polls e (S k).
Proof.
  unfold after_busy_polls. cbn [data_line samples clock trace repeat].
  f_equal; [lia | lia |]. now rewrite <- app_assoc.
Qed.

Lemma high_for_tail (e : env) (k : nat) :
  high_for e (S k) ->
  data_line e (samples e) = true /\
  high_for (mkEnv (data_line e) (S (samples e)) (clock e + 1)
              (trace e ++ [Input DOUT_PIN 1])) k.
Proof.
  intros H. split.
  - specialize (H O ltac:(lia)). now rewrite Nat.add_0_r in H.
  - intros i Hi. cbn [data_line samples].
    specialize (H (S i) ltac:(lia)). now rewrite Nat.add_succ_r in H.
Qed.

(** While the line is HIGH and the timeout has not passed, each round of
    [wait_ready] polls once and sleeps one millisecond. *)
Lemma wait_ready_loop_busy (k : nat) : forall (fuel : nat) (start timeout : Z) (e : env),
  high_for e k -> (k <= fuel)%nat ->
  clock e - start + Z.of_nat k - 1 <= timeout ->
  wait_ready_loop fuel start timeout e =
  wait_ready_loop (fuel - k) start timeout (after_busy_polls e k).
Proof.
  induction k as [| k IH]; intros fuel start timeout e Hhigh Hfuel Htime.
  - now rewrite after_no_poll, Nat.sub_0_r.
  - destruct fuel as [| fuel]; [lia |].
    destruct (high_for_tail e k Hhigh) as [H0 Hrest].
    cbn [wait_ready_loop is_ready bind ret IO_Monad GPIO_input time_time].
    rewrite H0. cbn [Z.b2z Z.eqb clock].
    destruct (Z.gtb_spec (clock e - start) timeout) as [Hgt |]; [lia |].
    cbn [time_sleep data_line samples clock trace].
    rewrite IH by (try exact Hrest; cbn [clock]; lia).
    now rewrite after_one_more_poll.
Qed.

(** The loop of [check_ready_signal] is the loop of [wait_ready]: on a
    level that is 0 or 1, [== GPIO.HIGH] and [not (== 0)] agree. *)
Lemma ready_signal_loop_same (fuel : nat) : forall (start timeout : Z) (e : env),
  ready_signal_loop fuel start timeout e = wait_ready_loop fuel start timeout e.
Proof.
  induction fuel as [| fuel IH]; intros start timeout e;
    cbn [ready_signal_loop wait_ready_loop is_ready bind ret IO_Monad
           GPIO_input time_time];
    destruct (data_line e (samples e));
    cbn [Z.b2z Z.eqb Pos.eqb clock]; cbn beta iota; cbn [clock];
    try reflexivity;
    destruct (clock e - start >? timeout); try reflexivity.
  cbn [time_sleep data_line samples clock trace]. apply IH.
Qed.

(** What any readiness wait does: it returns after at least one poll of the
    data pin, having touched nothing else, and has slept one millisecond
    between polls. *)
Lemma wait_ready_loop_effect (fuel : nat) : forall (start timeout : Z) (e : env),
  timeout - (clock e - start) < Z.of_nat fuel ->
  exists (ready : bool) (polls : list event),
    wait_ready_loop fuel start timeout e =
      (Returned ready,
       mkEnv (data_line e) (samples e + length polls)
         (clock e + Z.of_nat (length polls) - 1) (trace e ++ polls)) /\
    Forall poll_event polls /\ polls <> [].
Proof.
  assert (Hpoll : forall b : bool, poll_event (Input DOUT_PIN (Z.b2z b))).
  { intros b. exists (Z.b2z b). split; [reflexivity |]. destruct b; cbn; lia. }
  assert (Hone : forall (e : env) (ready : bool),
             exists polls : list event,
               (Returned ready,
                mkEnv (data_line e) (S (samples e)) (clock e)
                  (trace e ++ [Input DOUT_PIN (Z.b2z (data_line e (samples e)))])) =
               (Returned ready,
                mkEnv (data_line e) (samples e + length polls)
                  (clock e + Z.of_nat (length polls) - 1) (trace e ++ polls)) /\
               Forall poll_event polls /\ polls <> []).
  { intros e ready. eexists [_]. split; [| split; [| discriminate]].
    - cbn [length]. do 2 f_equal; lia.
    - constructor; [apply Hpoll | constructor]. }
  induction fuel as [| fuel IH]; intros start timeout e Hfuel;
    cbn [wait_ready_loop is_ready bind ret IO_Monad GPIO_input time_time];
    (destruct (Z.b2z (data_line e (samples e)) =? 0);
       [exists true; apply Hone |]);
    cbn [clock];
    (destruct (Z.gtb_spec (clock e - start) timeout);
       [exists false; apply Hone |]).
  - simpl in Hfuel. lia.
  - cbn [time_sleep data_line samples clock trace].
    match goal with
    | |- context [wait_ready_loop fuel start timeout ?e1] =>
        destruct (IH start timeout e1) as (ready & polls & E & Hall & Hne)
    end.
    { cbn [clock]. lia. }
    rewrite E. cbn [data_line samples clock trace].
    exists ready, (Input DOUT_PIN (Z.b2z (data_line e (samples e))) :: polls).
    split; [| split; [| discriminate]].
    + cbn [length]. rewrite <- app_assoc. cbn [app].
      do 2 f_equal; lia.
    + constructor; [apply Hpoll | exact Hall].
Qed.

Lemma wait_ready_effect (timeout : Z) (e : env) :
  exists (ready : bool) (polls : list event),
    wait_ready timeout e =
      (Returned ready,
       mkEnv (data_line e) (samples e + length polls)
         (clock e + Z.of_nat (length polls) - 1) (trace e ++ polls)) /\
    Forall poll_event polls /\ polls <> [].
Proof.
  unfold wait_ready. cbn [bind IO_Monad time_time].
  apply wait_ready_loop_effect. lia.
Qed.

End Waiting.

Section Exchange.


Lemma wait_ready_gives_up (timeout : Z) (e : env) :
  0 <= timeout -> high_for e (Z.to_nat (timeout + 2)) ->
  wait_ready timeout e =
  (Returned false,
   mkEnv (data_line e) (samples e + Z.to_nat (timeout + 2))
     (clock e + (timeout + 1))
     (trace e ++ repeat (Input DOUT_PIN 1) (Z.to_nat (timeout + 2)))).
Proof.
  intros Ht Hhigh. unfold wait_ready. cbn [bind IO_Monad time_time].
  assert (E2 : Z.to_nat (timeout + 2) = S (Z.to_nat (timeout + 1))) by lia.
  rewrite (wait_ready_loop_busy (Z.to_nat (timeout + 1)));
    [| intros i Hi; apply Hhigh; lia | lia | lia].
  rewrite Nat.sub_diag. unfold after_busy_polls.
  cbn [wait_ready_loop is_ready bind ret IO_Monad GPIO_input time_time
         data_line samples clock trace].
  rewrite (Hhigh (Z.to_nat (timeout + 1))) by lia.
  cbn [Z.b2z Z.eqb]. cbn beta iota. cbn [clock].
  destruct (Z.gtb_spec (clock e + Z.of_nat (Z.to_nat (timeout + 1)) - clock e) timeout);
    [| lia].
  rewrite E2. f_equal. f_equal.
  - lia.
  - lia.
  - rewrite <- app_assoc. f_equal.
    change [Input DOUT_PIN 1] with (repeat (Input DOUT_PIN 1) 1).
    rewrite <- repeat_app. f_equal. lia.
Qed.

Lemma read_raw_when_ready (e e1 : env) :
  wait_ready default_timeout e = (Returned true, e1) ->
  read_raw e =
  (Returned (Some (to_signed (msb_first (incoming e1 24)))),
   mkEnv (data_line e1) (samples e1 + 24) (clock e1)
     (trace e1 ++ flat_map data_cycle (incoming e1 24) ++ gain_pulse)).
Proof.
  intros Hw. unfold read_raw. cbn [bind IO_Monad]. rewrite Hw.
  cbn [negb ret IO_Monad]. rewrite shift_in_run.
  cbn [GPIO_output data_line samples clock trace].
  destruct (shifted_msb_first (incoming e1 24) 0 ltac:(lia)
              (incoming_levels _ _)) as [E _].
  rewrite E, Z.mul_0_l, Z.add_0_l.
  f_equal. f_equal. unfold gain_pulse. rewrite <- !app_assoc. reflexivity.
Qed.

Lemma read_raw_when_busy (e e1 : env) :
  wait_ready default_timeout e = (Returned false, e1) ->
  read_raw e = (Returned None, e1).
Proof.
  intros Hw. unfold read_raw. cbn [bind IO_Monad]. now rewrite Hw.
Qed.

Lemma clock_levels_app (a b : list event) :
  clock_levels (a ++ b) = clock_levels a ++ clock_levels b.
Proof. unfold clock_levels. apply flat_map_app. Qed.

Lemma clock_levels_polls (polls : list event) :
  Forall poll_event polls -> clock_levels polls = [].
Proof.
  induction 1 as [| ev polls (level & -> & _) _ IH]; [reflexivity |].
  unfold clock_levels in *. cbn [flat_map]. exact IH.
Qed.

Lemma clock_levels_cycles (bits : list Z) :
  clock_levels (flat_map data_cycle bits) = pulse_train (length bits).
Proof.
  induction bits as [| b bits IH]; [reflexivity |].
  cbn [flat_map length pulse_train]. rewrite clock_levels_app, IH. reflexivity.
Qed.

Lemma pulse_train_app (p q : nat) :
  pulse_train (p + q) = pulse_train p ++ pulse_train q.
Proof. induction p as [| p IH]; [reflexivity |]. cbn. now rewrite IH. Qed.

Lemma pulse_train_cycles (p : nat) : high_low_cycles (pulse_train p) = p.
Proof.
  induction p as [| p IH]; [reflexivity |].
  cbn [pulse_train]. destruct p as [| p].
  - reflexivity.
  - cbn [pulse_train] in *. cbn [high_low_cycles Z.eqb Pos.eqb andb] in *.
    now rewrite IH.
Qed.

Lemma driver_events_cycles (bits : list Z) :
  Forall (fun b => 0 <= b <= 1) bits ->
  Forall driver_event (flat_map data_cycle bits).
Proof.
  induction 1 as [| b bits Hb _ IH]; [constructor |].
  cbn [flat_map data_cycle app].
  constructor; [cbn; split; [reflexivity | now right] |].
  constructor; [cbn; split; [reflexivity | now left] |].
  constructor; [cbn; split; [reflexivity | lia] | exact IH].
Qed.

Lemma poll_is_driver_event (polls : list event) :
  Forall poll_event polls -> Forall driver_event polls.
Proof.
  apply Forall_impl. intros ev (level & -> & H). cbn. now split.
Qed.

(** What any transport read does, whatever the device does. *)
Lemma read_raw_effect (e : env) :
  exists (r : option Z) (e' : env) (new : list event),
    read_raw e = (Returned r, e') /\
    data_line e' = data_line e /\
    trace e' = trace e ++ new /\
    clock e <= clock e' /\
    (samples e < samples e')%nat /\
    Forall driver_event new /\
    match r with
    | Some v => in_range v /\ clock_levels new = pulse_train 25
    | None => clock_levels new = []
    end.
Proof.
  destruct (wait_ready_effect default_timeout e) as (ready & polls & Ew & Hpolls & Hne).
  assert (Hlen : (0 < length polls)%nat) by (destruct polls; [contradiction | cbn; lia]).
  destruct ready.
  - rewrite (read_raw_when_ready _ _ Ew).
    cbn [data_line samples clock trace].
    eexists _, _, _. split; [reflexivity |].
    split; [reflexivity |]. split; [now rewrite <- app_assoc |].
    cbn [data_line samples clock trace].
    split; [lia |]. split; [lia |]. split; [| split].
    + apply Forall_app. split; [now apply poll_is_driver_event |].
      apply Forall_app. split.
      * apply driver_events_cycles, incoming_levels.
      * unfold gain_pulse.
        constructor; [cbn; split; [reflexivity | now right] |].
        constructor; [cbn; split; [reflexivity | now left] | constructor].
    + destruct (read_raw_returns e) as (r & e1 & Er & Hr).
      rewrite (read_raw_when_ready _ _ Ew) in Er. injection Er as <- _. exact Hr.
    + rewrite !clock_levels_app, clock_levels_polls by exact Hpolls.
      rewrite clock_levels_cycles, incoming_length. reflexivity.
  - rewrite (read_raw_when_busy _ _ Ew).
    cbn [data_line samples clock trace].
    eexists _, _, _. split; [reflexivity |].
    split; [reflexivity |]. split; [reflexivity |].
    cbn [data_line samples clock trace].
    split; [lia |]. split; [lia |].
    split; [now apply poll_is_driver_event | now apply clock_levels_polls].
Qed.

End Exchange.



(** X2. A data line that stays HIGH for a whole wait makes [read_raw] give
    up: it returns [None], and on the way it has only polled the data pin,
    never written to the clock pin. *)
Theorem read_raw_times_out (e : env) :
  high_for e 2002 ->
  exists polls : list event,
    fst (read_raw e) = Returned None /\
    trace (snd (read_raw e)) = trace e ++ polls /\
    Forall poll_event polls /\
    clock_levels polls = [].
Proof.
  intros Hhigh.
  assert (E : read_raw e =
              (Returned None,
               mkEnv (data_line e) (samples e + 2002) (clock e + 2001)
                 (trace e ++ repeat (Input DOUT_PIN 1) 2002))).
  { apply read_raw_when_busy.
    apply (wait_ready_gives_up default_timeout e);
      [unfold default_timeout; lia | exact Hhigh]. }
  rewrite E. cbn [fst snd trace].
  assert (Hp : Forall poll_event (repeat (Input DOUT_PIN 1) 2002)).
  { apply Forall_forall. intros ev Hev. apply repeat_spec in Hev. subst ev.
    exists 1. split; [reflexivity | now right]. }
  exists (repeat (Input DOUT_PIN 1) 2002).
  split; [reflexivity |]. split; [reflexivity |]. split; [exact Hp |].
  now apply clock_levels_polls.
Qed.

Lemma read_raw_times_out_witness :
  fst (read_raw unplugged) = Returned None /\
  clock_levels (trace (snd (read_raw unplugged))) = [].
Proof.
  assert (Hhigh : high_for unplugged 2002).
  { intros i Hi. unfold unplugged, env_of, busy. cbn [data_line samples Nat.add].
    apply nth_repeat_lt. exact Hi. }
  destruct (read_raw_times_out unplugged Hhigh) as (polls & Er & Et & _ & Hc).
  split; [exact Er |]. rewrite Et. exact Hc.
Defined.

(** X3. Whatever the device does, [read_raw] returns, and only in two
    ways: [None] without a single write to the clock pin, or a sample of the
    signed 24-bit range after exactly 25 HIGH-then-LOW pulses, the clock
    line ending LOW. It writes to no pin but the clock pin and reads no pin
    but the data pin. *)
Theorem read_raw_discipline (e : env) :
  exists (r : option Z) (e' : env) (new : list event),
    read_raw e = (Returned r, e') /\
    trace e' = trace e ++ new /\
    Forall driver_event new /\
    match r with
    | Some v =>
        in_range v /\
        clock_levels new = pulse_train 25 /\
        high_low_cycles (clock_levels new) = 25%nat /\
        last (clock_levels new) 0 = 0
    | None => clock_levels new = []
    end.
Proof.
  destruct (read_raw_effect e) as (r & e' & new & Er & _ & Et & _ & _ & Hev & Hr).
  exists r, e', new. split; [exact Er |]. split; [exact Et |].
  split; [exact Hev |].
  destruct r as [v |]; [| exact Hr].
  destruct Hr as [Hv Hc]. rewrite Hc.
  split; [exact Hv |]. split; [reflexivity |]. split; reflexivity.
Qed.

(** X4. [check_ready_signal] of diagnose_hx711.py drives the clock LOW and
    then waits exactly as [wait_ready] of scale.py does with its default
    timeout: same polls, same sleeps, same answer. *)
Theorem check_ready_signal_is_wait_ready (e : env) :
  check_ready_signal e =
  wait_ready default_timeout
    (mkEnv (data_line e) (samples e) (clock e) (trace e ++ [Output SCK_PIN 0])).
Proof.
  unfold check_ready_signal, wait_ready, default_timeout.
  cbn [bind IO_Monad GPIO_output time_time clock].
  apply ready_signal_loop_same.
Qed.

Section AveragingEffect.

Lemma read_loop_effect (n : nat) : forall (values : list Z) (e : env),
  exists (added : list Z) (e' : env) (new : list event),
    read_loop n values e = (Returned (values ++ added), e') /\
    data_line e' = data_line e /\
    trace e' = trace e ++ new /\
    clock e + 10 * Z.of_nat n <= clock e' /\
    (samples e + n <= samples e')%nat /\
    Forall driver_event new /\
    clock_levels new = pulse_train (25 * length added) /\
    Forall in_range added.
Proof.
  induction n as [| n IH]; intros values e.
  - exists [], e, []. cbn [read_loop ret IO_Monad].
    rewrite !app_nil_r. repeat split; try lia; constructor.
  - destruct (read_raw_effect e) as (r & e1 & new1 & Er & Hd1 & Ht1 & Hc1 & Hs1 & Hev1 & Hr).
    cbn [read_loop bind IO_Monad]. rewrite Er. cbn [time_sleep].
    match goal with
    | |- context [read_loop n ?vs ?e2] =>
        destruct (IH vs e2) as (added & e' & new & El & Hd & Ht & Hc & Hs & Hev & Hp & Hin)
    end.
    cbn [data_line samples clock trace] in Hd, Ht, Hc, Hs.
    rewrite El.
    exists (match r with Some v => v :: added | None => added end), e', (new1 ++ new).
    split.
    { destruct r; [rewrite <- app_assoc |]; reflexivity. }
    split; [congruence |].
    split; [rewrite Ht, Ht1; now rewrite app_assoc |].
    split; [lia |]. split; [lia |].
    split; [apply Forall_app; now split |].
    rewrite clock_levels_app, Hp.
    destruct r as [v |].
    + destruct Hr as [Hv Hcl]. rewrite Hcl. split; [| now constructor].
      cbn [length]. replace (25 * S (length added))%nat with (25 + 25 * length added)%nat by lia.
      now rewrite pulse_train_app.
    + rewrite Hr. split; [reflexivity | exact Hin].
Qed.

End AveragingEffect.

(** X5. [read_average n] pulses the clock 25 times for each read that
    delivered a value and not at all for a read that timed out, sleeps at
    least 10 ms per read, timed out or not, and touches no pin but the
    clock pin (written) and the data pin (read). *)
Theorem read_average_discipline (n : nat) (e : env) :
  exists new : list event,
    trace (snd (read_average n e)) = trace e ++ new /\
    Forall driver_event new /\
    high_low_cycles (clock_levels new) =
      (25 * length (valid_values (fst (transport_reads n e))))%nat /\
    clock e + 10 * Z.of_nat n <= clock (snd (read_average n e)).
Proof.
  destruct (read_loop_effect n [] e) as (added & e' & new & El & _ & Ht & Hc & _ & Hev & Hp & _).
  destruct (read_loop_collects n [] e) as (El' & _ & _).
  rewrite El in El'. injection El' as Ea Ee.
  cbn [app] in Ea. subst added e'.
  rewrite read_average_run. cbn [snd].
  exists new. split; [exact Ht |]. split; [exact Hev |].
  split; [| exact Hc].
  now rewrite Hp, pulse_train_cycles.
Qed.

(** ** Weighing with the calibration values *)

Section Weighing.

Lemma get_weight_average_run (times : nat) (g : globals) (e : env) :
  get_weight_average times g e =
  match read_average times e with
  | (Returned (Some a), e') =>
      (obind (sub (Float a) (OFFSET g)) (fun d =>
       obind (truediv d (SCALE g)) (fun w => Returned (Some w))), g, e')
  | (Returned None, e') => (Returned None, g, e')
  | (Raised x, e') => (Raised x, g, e')
  | (OutOfFuel, e') => (OutOfFuel, g, e')
  end.
Proof.
  unfold get_weight_average, io, eval, get_OFFSET, get_SCALE.
  cbn [bind Prog_Monad].
  destruct (read_average times e) as [[[a |] | x |] e']; try reflexivity.
  destruct (sub (Float a) (OFFSET g)) as [d | x |]; try reflexivity.
  all: cbn [obind]; destruct (truediv d (SCALE g)); reflexivity.
Qed.

Lemma sub_mean_returns (m : float) (offset : num) :
  fits_double offset ->
  exists fo : float,
    as_float offset = Returned fo /\
    sub (Float m) offset = Returned (Float (fsub m fo)).
Proof.
  intros Ho. destruct (as_float_fits offset Ho) as (fo & Eo & _).
  exists fo. split; [exact Eo |]. cbn [sub as_float obind]. now rewrite Eo.
Qed.

(** Dividing by a calibration value that is zero raises. *)
Lemma truediv_by_zero (d scale : num) :
  match d with
  | Int a => Z.abs a < 2 ^ 54
  | Float _ => True
  end ->
  is_zero scale = true ->
  truediv d scale = Raised ZeroDivisionError.
Proof.
  intros Hd Hz.
  assert (H54 : 2 ^ 54 < 2 ^ 1023) by (apply Z.ltb_lt; vm_compute; reflexivity).
  destruct d as [a | fd], scale as [s | fs]; cbn [truediv as_float obind is_zero] in *.
  - unfold int_truediv. now rewrite Hz.
  - destruct (float_of_int_returns a) as (f & Ef & _); [lia |].
    rewrite Ef. cbn [obind]. now rewrite Hz.
  - apply Z.eqb_eq in Hz. subst s. reflexivity.
  - now rewrite Hz.
Qed.

End Weighing.

(** X6. [get_weight_average] returns nothing exactly when its window has
    no valid sample; otherwise, with a scale that is not zero, it returns
    [(mean - OFFSET) / SCALE] for the mean of the valid samples. It leaves
    the calibration values as they are. *)
Theorem get_weight_average_conversion (times : nat) (g : globals) (e : env) :
  let rs := fst (transport_reads times e) in
  let e' := snd (transport_reads times e) in
  let vs := valid_values rs in
  (fst (fst (get_weight_average times g e)) = Returned None <-> vs = []) /\
  (vs = [] -> get_weight_average times g e = (Returned None, g, e')) /\
  (vs <> [] -> fits_double (OFFSET g) -> fits_double (SCALE g) ->
   is_zero (SCALE g) = false ->
   exists (m : float) (d w : num),
     mean vs = Returned m /\
     sub (Float m) (OFFSET g) = Returned d /\
     truediv d (SCALE g) = Returned w /\
     get_weight_average times g e = (Returned (Some w), g, e')).
Proof.
  intros rs e' vs.
  assert (Hnone : vs = [] -> get_weight_average times g e = (Returned None, g, e')).
  { intros Hvs. now rewrite get_weight_average_run, (read_average_none times e Hvs). }
  split; [split | split; [exact Hnone |]].
  - intros Hn. destruct vs as [| v rest] eqn:Evs; [reflexivity |].
    destruct (read_average_some times e) as (m & _ & _ & Er).
    { fold rs vs. rewrite Evs. discriminate. }
    rewrite get_weight_average_run, Er in Hn. cbn [fst] in Hn.
    destruct (sub (Float m) (OFFSET g)) as [d | |]; cbn [obind] in Hn;
      try discriminate Hn.
    destruct (truediv d (SCALE g)); discriminate Hn.
  - intros Hvs. now rewrite (Hnone Hvs).
  - intros Hvs Ho Hs Hnz.
    destruct (read_average_some times e Hvs) as (m & Em & _ & Er).
    destruct (sub_mean_returns m (OFFSET g) Ho) as (fo & _ & Ed).
    destruct (truediv_returns (Float (fsub m fo)) (SCALE g) I Hs Hnz) as (w & Ew).
    exists m, (Float (fsub m fo)), w.
    split; [exact Em |]. split; [exact Ed |]. split; [exact Ew |].
    rewrite get_weight_average_run, Er, Ed. cbn [obind]. now rewrite Ew.
Qed.

Lemma get_weight_average_conversion_witness :
  exists w : num,
    fst (fst (get_weight_average 4 (mkGlobals (Int 0) (Float five_hundred)) empty_pan)) =
      Returned (Some w) /\
    truediv (Float hundred) (Float five_hundred) = Returned w.
Proof.
  destruct (get_weight_average_conversion 4
              (mkGlobals (Int 0) (Float five_hundred)) empty_pan)
    as (_ & _ & H).
  destruct H as (m & d & w & Em & Ed & Ew & Eg).
  { vm_compute. discriminate. }
  { cbn. lia. }
  { exact I. }
  { reflexivity. }
  exists w. rewrite Eg. split; [reflexivity |].
  vm_compute in Em. injection Em as <-.
  vm_compute in Ed. injection Ed as <-.
  exact Ew.
Defined.

(** X7. With a scale of zero, every weighing that obtains a sample raises
    [ZeroDivisionError]: [get_weight] after a successful read, and
    [get_weight_average] as soon as one read of its window succeeds. The
    calibration values are left as they are. *)
Theorem zero_scale_raises (g : globals) :
  is_zero (SCALE g) = true -> fits_double (OFFSET g) ->
  (forall (e e' : env) (x : Z),
     read_raw e = (Returned (Some x), e') ->
     get_weight g e = (Raised ZeroDivisionError, g, e')) /\
  (forall (times : nat) (e : env),
     valid_values (fst (transport_reads times e)) <> [] ->
     get_weight_average times g e =
       (Raised ZeroDivisionError, g, snd (transport_reads times e))).
Proof.
  intros Hz Ho. split.
  - intros e e' x Er.
    pose proof (read_raw_in_range e e' x Er) as Hx.
    destruct (sub_sample_returns x (OFFSET g) Hx Ho) as (d & Ed & Hd).
    rewrite get_weight_run, Er, Ed. cbn [obind].
    now rewrite (truediv_by_zero d (SCALE g) Hd Hz).
  - intros times e Hvs.
    destruct (read_average_some times e Hvs) as (m & _ & _ & Er).
    destruct (sub_mean_returns m (OFFSET g) Ho) as (fo & _ & Ed).
    rewrite get_weight_average_run, Er, Ed. cbn [obind].
    now rewrite (truediv_by_zero (Float (fsub m fo)) (SCALE g) I Hz).
Qed.

Lemma zero_scale_raises_witness :
  fst (fst (get_weight (mkGlobals (Float (of_Z 600)) (Float zero)) loaded_pan)) =
  Raised ZeroDivisionError.
Proof.
  assert (Er : read_raw loaded_pan = (Returned (Some 600), snd (read_raw loaded_pan)))
    by (vm_compute; reflexivity).
  destruct (zero_scale_raises (mkGlobals (Float (of_Z 600)) (Float zero))
              eq_refl I) as [Hw _].
  rewrite (Hw _ _ _ Er). reflexivity.
Defined.

(** X8. [tare] never changes the scale and [calibrate] never changes the
    offset, whether they succeed, fail or raise; the two weighing functions
    change neither. *)
Theorem calibration_frame (k : num) (times : nat) (g : globals) (e : env) :
  SCALE (snd (fst (tare times g e))) = SCALE g /\
  OFFSET (snd (fst (calibrate k times g e))) = OFFSET g /\
  snd (fst (get_weight g e)) = g /\
  snd (fst (get_weight_average times g e)) = g.
Proof.
  rewrite tare_run, calibrate_run, get_weight_run, get_weight_average_run.
  destruct (read_average times e) as [[[a |] | x |] e'];
    destruct (read_raw e) as [[[r |] | y |] e''];
    cbn [fst snd SCALE OFFSET];
    try destruct (obind (sub (Float a) (OFFSET g)) (fun d => truediv d k));
    repeat split.
Qed.

(** X9. The session of [main], tare, then calibrate with a known weight
    given as a non-zero float, then one averaged weighing, each on a window
    with a valid sample: the offset becomes the first mean [m0], the scale
    becomes [s = (m1 - m0) / weight], and the weighing returns
    [(m2 - m0) / s], or raises [ZeroDivisionError] when [s] is zero. The
    calibration values in force before the session play no part. *)
Theorem session_result (fk : float) (nt nc nw : nat) (g : globals) (e : env) :
  let e1 := snd (transport_reads nt e) in
  let e2 := snd (transport_reads nc e1) in
  let e3 := snd (transport_reads nw e2) in
  let vs0 := valid_values (fst (transport_reads nt e)) in
  let vs1 := valid_values (fst (transport_reads nc e1)) in
  let vs2 := valid_values (fst (transport_reads nw e2)) in
  vs0 <> [] -> vs1 <> [] -> vs2 <> [] -> fis_zero fk = false ->
  exists m0 m1 m2 : float,
    mean vs0 = Returned m0 /\ mean vs1 = Returned m1 /\ mean vs2 = Returned m2 /\
    session (Float fk) nt nc nw g e =
      ((if fis_zero (fdiv (fsub m1 m0) fk) then Raised ZeroDivisionError
        else Returned (Some (Float (fdiv (fsub m2 m0) (fdiv (fsub m1 m0) fk))))),
       mkGlobals (Float m0) (Float (fdiv (fsub m1 m0) fk)), e3).
Proof.
  intros e1 e2 e3 vs0 vs1 vs2 H0 H1 H2 Hk.
  destruct (read_average_some nt e H0) as (m0 & Em0 & _ & Er0).
  destruct (read_average_some nc e1 H1) as (m1 & Em1 & _ & Er1).
  destruct (read_average_some nw e2 H2) as (m2 & Em2 & _ & Er2).
  exists m0, m1, m2. split; [exact Em0 |]. split; [exact Em1 |].
  split; [exact Em2 |].
  unfold session. cbn [bind Prog_Monad].
  rewrite tare_run, Er0. fold e1.
  rewrite calibrate_run, Er1. fold e2.
  cbn [OFFSET sub as_float obind truediv]. rewrite Hk.
  rewrite get_weight_average_run, Er2. fold e3.
  cbn [OFFSET SCALE sub as_float obind truediv].
  now destruct (fis_zero (fdiv (fsub m1 m0) fk)).
Qed.

Lemma session_result_witness :
  exists w : num,
    fst (session (Float five_hundred) 1 1 1 initial_globals three_weighings) =
      (Returned (Some w), mkGlobals (Float hundred) (Float (of_Z 1))) /\
    eq_int w 250 = true.
Proof.
  pose proof (session_result five_hundred 1 1 1 initial_globals three_weighings) as H.
  cbv zeta in H.
  assert (H0 : valid_values (fst (transport_reads 1 three_weighings)) <> [])
    by (vm_compute; discriminate).
  assert (H1 : valid_values (fst (transport_reads 1
                 (snd (transport_reads 1 three_weighings)))) <> [])
    by (vm_compute; discriminate).
  assert (H2 : valid_values (fst (transport_reads 1
                 (snd (transport_reads 1
                    (snd (transport_reads 1 three_weighings)))))) <> [])
    by (vm_compute; discriminate).
  destruct (H H0 H1 H2 eq_refl) as (m0 & m1 & m2 & E0 & E1 & E2 & Es).
  vm_compute in E0. injection E0 as <-.
  vm_compute in E1. injection E1 as <-.
  vm_compute in E2. injection E2 as <-.
  rewrite Es. cbn [fst].
  eexists. split; [vm_compute; reflexivity | vm_compute; reflexivity].
Defined.

(** ** More on the decoder and the pattern checks *)

Section Patterns.

Lemma top_bit_set (x n : Z) :
  0 <= n -> 2 ^ n <= x < 2 ^ (n + 1) -> Z.testbit x n = true.
Proof.
  intros Hn [Hlo Hhi]. apply Z.testbit_true; [exact Hn |].
  replace (x / 2 ^ n) with 1; [reflexivity |].
  rewrite Z.pow_add_r in Hhi by lia. change (2 ^ 1) with 2 in Hhi.
  apply Z.div_unique with (r := x - 2 ^ n); lia.
Qed.

Lemma land_pow2_pred (n : Z) : 0 <= n -> Z.land (2 ^ n - 1) (2 ^ n) = 0.
Proof.
  intros Hn. rewrite Z.land_comm.
  replace (2 ^ n - 1) with (Z.ones n) by (rewrite Z.ones_equiv; lia).
  rewrite Z.land_ones by exact Hn. apply Z.mod_same.
  pose proof (Z.pow_pos_nonneg 2 n ltac:(lia) Hn). lia.
Qed.

Lemma pow2_test_sound (r : Z) :
  0 < r -> Z.land r (r + 1) = 0 -> pow2_minus_1 r.
Proof.
  intros Hr Hland.
  pose proof (Z.log2_spec (r + 1) ltac:(lia)) as [Hlo Hhi].
  pose proof (Z.log2_nonneg (r + 1)) as Hn.
  set (n := Z.log2 (r + 1)) in *.
  assert (Hn1 : 1 <= n).
  { destruct (Z.eq_dec n 0) as [E | ]; [| lia].
    rewrite E in Hhi. change (2 ^ Z.succ 0) with 2 in Hhi. lia. }
  exists n. split; [exact Hn1 |].
  destruct (Z.eq_dec (r + 1) (2 ^ n)) as [E | Hne]; [lia | exfalso].
  rewrite <- Z.add_1_r in Hhi.
  assert (B1 : Z.testbit r n = true) by (apply top_bit_set; lia).
  assert (B2 : Z.testbit (r + 1) n = true) by (apply top_bit_set; lia).
  assert (B : Z.testbit (Z.land r (r + 1)) n = true)
    by (rewrite Z.land_spec, B1, B2; reflexivity).
  rewrite Hland, Z.bits_0 in B. discriminate B.
Qed.

Lemma pow2_test_complete (r : Z) :
  pow2_minus_1 r -> 0 < r /\ Z.land r (r + 1) = 0.
Proof.
  intros (n & Hn & ->).
  assert (2 <= 2 ^ n).
  { change 2 with (2 ^ 1) at 1. apply Z.pow_le_mono_r; lia. }
  split; [lia |].
  replace (2 ^ n - 1 + 1) with (2 ^ n) by lia.
  apply land_pow2_pred. lia.
Qed.

End Patterns.

(** X10. On 24-bit magnitudes the decoder is one-to-one and onto the
    signed range: the result lies in [-8388608, 8388607], the magnitude is
    recovered from it modulo [2 ^ 24], and two magnitudes that decode alike
    are equal. *)
Theorem to_signed_bijective :
  (forall m : Z, 0 <= m <= 0xFFFFFF ->
     in_range (to_signed m) /\ encode (to_signed m) = m) /\
  (forall m m' : Z, 0 <= m <= 0xFFFFFF -> 0 <= m' <= 0xFFFFFF ->
     to_signed m = to_signed m' -> m = m').
Proof.
  assert (Hinv : forall m : Z, 0 <= m <= 0xFFFFFF -> encode (to_signed m) = m).
  { intros m Hm. unfold encode.
    rewrite to_signed_testbit, sign_bit_threshold by exact Hm.
    destruct (Z.leb_spec 0x800000 m).
    - symmetry. apply Z.mod_unique with (q := -1); lia.
    - apply Z.mod_small. lia. }
  split.
  - intros m Hm. split; [now apply to_signed_range | now apply Hinv].
  - intros m m' Hm Hm' E.
    rewrite <- (Hinv m Hm), <- (Hinv m' Hm'). now rewrite E.
Qed.

Lemma to_signed_bijective_witness :
  in_range (to_signed 0xFFFFF0) /\ encode (to_signed 0xFFFFF0) = 0xFFFFF0.
Proof. exact (proj1 to_signed_bijective 0xFFFFF0 ltac:(lia)). Defined.

(** X11. The bit test [r > 0 and (r & (r + 1)) == 0] of test_scale.py holds
    exactly for the numbers [2 ^ n - 1] with [n >= 1], as its comment says.
    The flag of [test_reading_formats] is raised exactly when every
    positive reading is such a number, so it is also raised when no reading
    is positive. *)
Theorem pow2_test_spec :
  (forall r : Z, is_pow2_minus_1 r = true <-> pow2_minus_1 r) /\
  (forall readings : list Z,
     suspicious readings = true <->
     forall r : Z, In r readings -> 0 < r -> pow2_minus_1 r) /\
  (forall readings : list Z,
     (forall r : Z, In r readings -> r <= 0) -> suspicious readings = true).
Proof.
  split; [| split].
  - intros r. unfold is_pow2_minus_1. rewrite andb_true_iff, Z.ltb_lt, Z.eqb_eq.
    split; [intros [Hr Hl]; now apply pow2_test_sound | apply pow2_test_complete].
  - intros readings. rewrite suspicious_all_positive. split.
    + intros H r Hin Hr. apply pow2_test_sound; [exact Hr | now apply H].
    + intros H r Hin Hr. now apply pow2_test_complete, H.
  - intros readings Hall. apply suspicious_all_positive.
    intros r Hin Hr. specialize (Hall r Hin). lia.
Qed.

Lemma pow2_test_spec_witness :
  suspicious [-5; 0; -8388608] = true /\ pow2_minus_1 1023.
Proof.
  split.
  - apply (proj2 (proj2 pow2_test_spec)).
    intros r [<- | [<- | [<- | []]]]; lia.
  - apply (proj1 pow2_test_spec 1023). reflexivity.
Defined.

(** ** The diagnostic scripts *)

Section Diagnosis.

Lemma byte_values (raw_value : Z) :
  byte1 raw_value = (raw_value / 65536) mod 256 /\
  byte2 raw_value = (raw_value / 256) mod 256 /\
  byte3 raw_value = raw_value mod 256.
Proof.
  unfold byte1, byte2, byte3. change 0xFF with (Z.ones 8).
  rewrite !Z.land_ones, !Z.shiftr_div_pow2 by lia. repeat split.
Qed.

Lemma bit_sum_facts (states : list Z) :
  Forall (fun b => 0 <= b <= 1) states ->
  0 <= sum states <= len states /\
  (sum states = len states <-> ~ In 0 states) /\
  (sum states = 0 <-> ~ In 1 states).
Proof.
  unfold len. induction 1 as [| b states Hb _ IH].
  - cbn. repeat split; try lia; intros _ [].
  - rewrite sum_cons. cbn [length In]. rewrite Nat2Z.inj_succ.
    destruct IH as (Hr & H0 & H1).
    assert (Hc : b = 0 \/ b = 1) by lia.
    split; [lia |]. split; split.
    + intros E [Hb0 | Hin]; [lia |]. apply H0; [lia | exact Hin].
    + intros Hn. destruct Hc as [-> | ->]; [exfalso; apply Hn; now left |].
      assert (sum states = Z.of_nat (length states)); [| lia].
      apply H0. intros Hin. apply Hn. now right.
    + intros E [Hb1 | Hin]; [lia |]. apply H1; [lia | exact Hin].
    + intros Hn. destruct Hc as [-> | ->]; [| exfalso; apply Hn; now left].
      assert (sum states = 0); [| lia].
      apply H1. intros Hin. apply Hn. now right.
Qed.

End Diagnosis.

(** X12. The byte analysis of [test_pins] splits a 24-bit value without
    loss: the three bytes are below 256 and give the value back as
    [byte1 * 65536 + byte2 * 256 + byte3]; the value is [0xFFFFFF] exactly
    when all three bytes are 0xFF, and 0 exactly when all three are 0. *)
Theorem byte_analysis (raw_value : Z) :
  0 <= raw_value <= 0xFFFFFF ->
  0 <= byte1 raw_value <= 255 /\
  0 <= byte2 raw_value <= 255 /\
  0 <= byte3 raw_value <= 255 /\
  raw_value = byte1 raw_value * 65536 + byte2 raw_value * 256 + byte3 raw_value /\
  (test_pins_verdict raw_value = StuckHigh <->
   byte1 raw_value = 255 /\ byte2 raw_value = 255 /\ byte3 raw_value = 255) /\
  (test_pins_verdict raw_value = StuckLow <->
   byte1 raw_value = 0 /\ byte2 raw_value = 0 /\ byte3 raw_value = 0).
Proof.
  intros Hr. destruct (byte_values raw_value) as (E1 & E2 & E3).
  assert (Hsplit : raw_value =
            byte1 raw_value * 65536 + byte2 raw_value * 256 + byte3 raw_value /\
            0 <= byte1 raw_value <= 255 /\ 0 <= byte2 raw_value <= 255 /\
            0 <= byte3 raw_value <= 255).
  { rewrite E1, E2, E3. Z.div_mod_to_equations. lia. }
  destruct Hsplit as (Hs & B1 & B2 & B3).
  split; [exact B1 |]. split; [exact B2 |]. split; [exact B3 |].
  split; [exact Hs |].
  unfold test_pins_verdict.
  destruct (Z.eqb_spec raw_value 0xFFFFFF) as [Ea | Na].
  - split; split; intros H; try discriminate H; try reflexivity; lia.
  - destruct (Z.eqb_spec raw_value 0) as [Ez | Nz].
    + split; split; intros H; try discriminate H; try reflexivity; lia.
    + destruct (Z.land (Z.shiftr raw_value 8) 255 =? 255);
        split; split; intros H; try discriminate H; lia.
Qed.

Lemma byte_analysis_witness :
  byte1 0x1234AB = 0x12 /\ byte2 0x1234AB = 0x34 /\ byte3 0x1234AB = 0xAB /\
  0x1234AB = byte1 0x1234AB * 65536 + byte2 0x1234AB * 256 + byte3 0x1234AB.
Proof.
  destruct (byte_analysis 0x1234AB ltac:(lia)) as (_ & _ & _ & Hs & _).
  split; [reflexivity |]. split; [reflexivity |]. split; [reflexivity |].
  exact Hs.
Defined.

(** X13. [read_raw_value] of diagnose_hx711.py withholds the two stuck
    patterns, so the value it returns is never -1 and never 0: the test
    [value != -1] of [main] adds nothing to [value is not None].
    [try_swapped_pins] decides in the same way. *)
Theorem read_raw_value_never_stuck (raw_value : Z) :
  0 <= raw_value <= 0xFFFFFF ->
  match read_raw_value_result raw_value with
  | Some v => v = to_signed raw_value /\ in_range v /\ v <> -1 /\ v <> 0
  | None => raw_value = 0xFFFFFF \/ raw_value = 0x000000
  end /\
  appears_working (read_raw_value_result raw_value) =
    match read_raw_value_result raw_value with
    | Some _ => true
    | None => false
    end /\
  swapped_pins_result raw_value = read_raw_value_result raw_value.
Proof.
  intros Hr. unfold read_raw_value_result, swapped_pins_result, appears_working.
  fold (to_signed raw_value).
  destruct (Z.eqb_spec raw_value 0xFFFFFF) as [Ea | Na];
    [split; [now left | split; reflexivity] |].
  destruct (Z.eqb_spec raw_value 0) as [Ez | Nz];
    [split; [now right | split; reflexivity] |].
  assert (Hv : to_signed raw_value <> -1 /\ to_signed raw_value <> 0).
  { rewrite to_signed_testbit, sign_bit_threshold by exact Hr.
    destruct (Z.leb_spec 0x800000 raw_value); lia. }
  destruct Hv as [Hm1 Hz].
  split; [| split; [| reflexivity]].
  - split; [reflexivity |]. split; [now apply to_signed_range | now split].
  - cbn [negb]. now apply negb_true_iff, Z.eqb_neq.
Qed.

Lemma read_raw_value_never_stuck_witness :
  read_raw_value_result 0xFFFFFE = Some (-2) /\
  appears_working (read_raw_value_result 0xFFFFFE) = true.
Proof.
  destruct (read_raw_value_never_stuck 0xFFFFFE ltac:(lia)) as (_ & Hw & _).
  split; [reflexivity | exact Hw].
Defined.

(** X14. The verdict of [check_sck_toggle] on its 25 sampled levels is
    "communication working" exactly when the levels are mixed, at least one
    LOW and at least one HIGH; the two counts add up to 25. *)
Theorem toggle_verdict_mixed (dout_states : list Z) :
  length dout_states = 25%nat ->
  Forall (fun b => 0 <= b <= 1) dout_states ->
  toggle_highs dout_states + toggle_lows dout_states = 25 /\
  (toggle_verdict dout_states = true <-> In 0 dout_states /\ In 1 dout_states).
Proof.
  intros Hlen Hbits.
  destruct (bit_sum_facts dout_states Hbits) as (Hr & H0 & H1).
  assert (Hl : len dout_states = 25) by (unfold len; rewrite Hlen; reflexivity).
  unfold toggle_verdict, toggle_lows, toggle_highs. rewrite Hl in *.
  split; [lia |].
  destruct (in_dec Z.eq_dec 0 dout_states) as [I0 | N0];
    destruct (in_dec Z.eq_dec 1 dout_states) as [I1 | N1].
  - destruct (Z.eqb_spec (sum dout_states) 25) as [E | _];
      [exfalso; now apply (proj1 H0 E) |].
    destruct (Z.eqb_spec (25 - sum dout_states) 25) as [E | _];
      [exfalso; apply (proj1 H1); [lia | exact I1] |].
    split; [now split | reflexivity].
  - assert (E : sum dout_states = 0) by now apply H1.
    rewrite E. cbn. split; [discriminate | intros [_ ?]; contradiction].
  - assert (E : sum dout_states = 25) by now apply H0.
    rewrite E. cbn. split; [discriminate | intros [? _]; contradiction].
  - assert (E : sum dout_states = 0) by now apply H1.
    rewrite E. cbn. split; [discriminate | intros [? _]; contradiction].
Qed.

Lemma toggle_verdict_mixed_witness :
  toggle_verdict (repeat 1 24 ++ [0]) = true /\
  toggle_verdict (repeat 1 25) = false.
Proof.
  split; [| reflexivity].
  apply (proj2 (toggle_verdict_mixed (repeat 1 24 ++ [0]) eq_refl
                  ltac:(repeat constructor; lia))).
  split; [apply in_or_app; right; now left | now left].
Defined.

(** X15. The summary of test_raw_gpio.py marks a configuration as good
    whenever [test_pins] returned a value other than the two stuck
    patterns: also for a value that [test_pins] itself reported as having
    a middle byte of 0xFF. *)
Theorem summary_accepts_warned_value (raw_value : Z) :
  (summary_status (Some raw_value) = Good raw_value <->
   test_pins_verdict raw_value = MiddleByteFF \/
   test_pins_verdict raw_value = VariedBits) /\
  (summary_status (Some raw_value) = AllOnesStatus <->
   test_pins_verdict raw_value = StuckHigh) /\
  (summary_status (Some raw_value) = AllZerosStatus <->
   test_pins_verdict raw_value = StuckLow).
Proof.
  unfold summary_status, test_pins_verdict.
  destruct (raw_value =? 0xFFFFFF).
  { repeat split; try discriminate; try reflexivity. intros [? | ?]; discriminate. }
  destruct (raw_value =? 0).
  { repeat split; try discriminate; try reflexivity. intros [? | ?]; discriminate. }
  destruct (Z.land (Z.shiftr raw_value 8) 255 =? 255);
    repeat split; try discriminate; try reflexivity; intros _; [now left | now right].
Qed.

(** ** Spread and stability of a reading list *)

Section Stability.

Lemma stats_of_readings (x : Z) (rest : list Z) (st : statistics) :
  stability_stats (x :: rest) = Returned (Some st) ->
  min_val st = py_min x rest /\ max_val st = py_max x rest /\
  variance st = py_max x rest - py_min x rest /\
  mean (x :: rest) = Returned (avg st).
Proof.
  unfold stability_stats, mean.
  destruct (int_truediv (sum (x :: rest)) (len (x :: rest))) as [m | |];
    cbn [obind]; intros E; try discriminate E.
  injection E as <-. repeat split.
Qed.

Lemma spread_bounds (x : Z) (rest : list Z) :
  py_min x rest <= py_max x rest /\
  (py_max x rest - py_min x rest = 0 <->
   forall r r' : Z, In r (x :: rest) -> In r' (x :: rest) -> r = r') /\
  (Forall in_range (x :: rest) ->
   0 <= py_max x rest - py_min x rest <= 16777215).
Proof.
  unfold py_min, py_max.
  destruct (fold_min_least rest x) as [Hmin_in Hmin].
  destruct (fold_max_greatest rest x) as [Hmax_in Hmax].
  pose proof (Hmin x (or_introl eq_refl)) as Hlo.
  pose proof (Hmax x (or_introl eq_refl)) as Hhi.
  split; [lia |]. split; [split |].
  - intros E r r' Hr Hr'.
    pose proof (Hmin r Hr). pose proof (Hmax r Hr).
    pose proof (Hmin r' Hr'). pose proof (Hmax r' Hr'). lia.
  - intros Hall. rewrite (Hall _ _ Hmin_in Hmax_in). lia.
  - intros Hall. rewrite Forall_forall in Hall.
    pose proof (Hall _ Hmin_in) as R1. pose proof (Hall _ Hmax_in) as R2.
    unfold in_range in R1, R2. lia.
Qed.

End Stability.

(** X16. The variance that [test_stability] prints, the greatest reading
    minus the least, is never negative, and it is zero exactly when all the
    readings are equal. *)
Theorem variance_zero_iff_constant (readings : list Z) (st : statistics) :
  stability_stats readings = Returned (Some st) ->
  min_val st <= max_val st /\
  0 <= variance st /\
  (variance st = 0 <->
   forall r r' : Z, In r readings -> In r' readings -> r = r').
Proof.
  intros Hst. destruct readings as [| x rest]; [discriminate Hst |].
  destruct (stats_of_readings x rest st Hst) as (Emin & Emax & Evar & _).
  destruct (spread_bounds x rest) as (Hle & Hzero & _).
  rewrite Emin, Emax, Evar. split; [exact Hle |]. split; [lia | exact Hzero].
Qed.

Lemma variance_zero_iff_constant_witness :
  exists st : statistics,
    stability_stats [7; 7; 7] = Returned (Some st) /\ variance st = 0.
Proof.
  assert (E : stability_stats [7; 7; 7] =
              Returned (Some (mkStatistics (of_Z 7) 7 7 0)))
    by (vm_compute; reflexivity).
  exists (mkStatistics (of_Z 7) 7 7 0). split; [exact E |].
  apply (proj2 (proj2 (variance_zero_iff_constant _ _ E))).
  intros r r' [<- | [<- | [<- | []]]] [<- | [<- | [<- | []]]]; reflexivity.
Defined.

(** X17. On a non-empty list of 24-bit readings the judgement of
    [test_stability] always comes to a verdict: the division by the average
    is guarded by [avg != 0] and raises nothing. The pattern warning is given
    exactly when more than half of the readings, rounded down, are
    [2 ^ n - 1] patterns; "stable" is never said of readings whose average
    is zero; and equal readings with a non-zero average and no majority of
    patterns are judged stable. *)
Theorem stability_verdict_returns (readings : list Z) :
  readings <> [] -> Forall in_range readings ->
  exists (v : stability) (m : float),
    mean readings = Returned m /\
    stability_verdict readings = Returned (Some v) /\
    (v = MostlyPatterns <-> len readings / 2 < suspicious_count readings) /\
    (v = Stable -> fis_zero m = false) /\
    ((forall r r' : Z, In r readings -> In r' readings -> r = r') ->
     suspicious_count readings <= len readings / 2 ->
     fis_zero m = false -> v = Stable).
Proof.
  intros Hne Hall.
  destruct (mean_returns readings Hne Hall) as (m & Em & Hfin).
  destruct readings as [| x rest]; [contradiction |].
  destruct (spread_bounds x rest) as (_ & Hzero & Hrange).
  specialize (Hrange Hall).
  assert (Hst : stability_stats (x :: rest) =
                Returned (Some (mkStatistics m (py_min x rest) (py_max x rest)
                                  (py_max x rest - py_min x rest)))).
  { unfold stability_stats. unfold mean in Em. now rewrite Em. }
  unfold stability_verdict. rewrite Hst. cbn [obind avg variance].
  destruct (Z.ltb_spec (len (x :: rest) / 2) (suspicious_count (x :: rest)))
    as [Hmaj | Hmin].
  { exists MostlyPatterns, m. split; [exact Em |]. split; [reflexivity |].
    split; [tauto |]. split; [intros H; discriminate H | intros _ Hc; lia]. }
  destruct (fis_zero m) eqn:Ez.
  { exists SomeVariance, m. split; [exact Em |]. split; [reflexivity |].
    split; [split; [intros H; discriminate H | lia] |].
    split; [intros H; discriminate H | intros _ _ Hc; congruence]. }
  cbn [truediv as_float].
  assert (H24 : 16777215 < 2 ^ 1023) by (apply Z.ltb_lt; vm_compute; reflexivity).
  destruct (float_of_int_returns (py_max x rest - py_min x rest))
    as (f & Ef & _); [lia |].
  rewrite Ef. cbn [obind]. rewrite Ez. cbn [obind].
  destruct (SFltb (SFabs (fdiv f m)) five_percent) eqn:Elt.
  - exists Stable, m. split; [exact Em |]. split; [reflexivity |].
    split; [split; [intros H; discriminate H | lia] |].
    split; [intros _; exact Ez | reflexivity].
  - exists SomeVariance, m. split; [exact Em |]. split; [reflexivity |].
    split; [split; [intros H; discriminate H | lia] |].
    split; [intros H; discriminate H |].
    intros Hconst _ _. exfalso.
    assert (Ev : py_max x rest - py_min x rest = 0) by now apply Hzero.
    rewrite Ev in Ef. injection Ef as <-.
    destruct m as [s | s | | s mm em]; try discriminate Hfin; try discriminate Ez.
    cbn in Elt. discriminate Elt.
Qed.

Lemma stability_verdict_returns_witness :
  stability_verdict [1000; 1001; 1000; 999] = Returned (Some Stable) /\
  stability_verdict [511; 1023; 2047] = Returned (Some MostlyPatterns).
Proof.
  split; [| vm_compute; reflexivity].
  destruct (stability_verdict_returns [1000; 1001; 1000; 999])
    as (v & m & _ & Ev & _).
  { discriminate. }
  { repeat constructor; unfold in_range; lia. }
  rewrite Ev.
  assert (E : stability_verdict [1000; 1001; 1000; 999] = Returned (Some Stable))
    by (vm_compute; reflexivity).
  rewrite Ev in E. exact E.
Defined.

(** The literal [0.05] is the double nearest to 1/20. *)
Lemma five_percent_value : int_truediv 1 20 = Returned five_percent.
Proof. vm_compute. reflexivity. Qed.

(** ** Choice of the reading format *)

Section FormatChoice.

Lemma try_format_step (seen : list trial) (b : best) (f : format) (x : Z) (rest : list Z) :
  best_of seen b -> Forall in_range (x :: rest) ->
  exists b' : best,
    try_format b f x rest = Returned b' /\
    best_of (seen ++ [(f, (x, rest))]) b'.
Proof.
  intros Hinv Hrange. unfold try_format.
  destruct (mean_returns (x :: rest) ltac:(discriminate) Hrange) as (m & Em & _).
  unfold mean in Em. rewrite Em. cbn [obind].
  set (t := (f, (x, rest)) : trial).
  change (py_max x rest - py_min x rest) with (spread t).
  change (x :: rest) with (readings_of t).
  assert (Hin : forall (t' : trial), In t' (seen ++ [t]) -> In t' seen \/ t' = t).
  { intros t' H. apply in_app_or in H. destruct H as [H | [H | []]]; auto. }
  destruct (suspicious (readings_of t)) eqn:Es; cbn [negb andb].
  - exists b. split; [reflexivity |]. unfold best_of in *.
    destruct (best_format b) as [f0 |].
    + destruct Hinv as (t0 & Hin0 & Hf & Hs & Hr & Hv & Hmin).
      exists t0. repeat split; try assumption; [apply in_or_app; now left |].
      intros t' Ht' Hs'. destruct (Hin t' Ht') as [H | ->]; [now apply Hmin | congruence].
    + destruct Hinv as [Hv Hall]. split; [exact Hv |].
      intros t' Ht'. destruct (Hin t' Ht') as [H | ->]; [now apply Hall | exact Es].
  - unfold best_of in Hinv.
    destruct (best_format b) as [f0 |] eqn:Ef.
    + destruct Hinv as (t0 & Hin0 & Hf & Hs & Hr & Hv & Hmin).
      rewrite Hv. cbn [below].
      destruct (Z.ltb_spec (spread t) (spread t0)) as [Hlt | Hge].
      * eexists. split; [reflexivity |]. unfold best_of. cbn [best_format].
        exists t. repeat split; try assumption; try reflexivity.
        { apply in_or_app. right. now left. }
        intros t' Ht' Hs'. destruct (Hin t' Ht') as [H | ->]; [| lia].
        specialize (Hmin t' H Hs'). lia.
      * exists b. split; [reflexivity |]. unfold best_of. rewrite Ef.
        exists t0. repeat split; try assumption; [apply in_or_app; now left |].
        intros t' Ht' Hs'. destruct (Hin t' Ht') as [H | ->]; [now apply Hmin | lia].
    + destruct Hinv as [Hv Hall]. rewrite Hv. cbn [below].
      eexists. split; [reflexivity |]. unfold best_of. cbn [best_format].
      exists t. repeat split; try assumption; try reflexivity.
      { apply in_or_app. right. now left. }
      intros t' Ht' Hs'. destruct (Hin t' Ht') as [H | ->]; [| lia].
      rewrite (Hall t' H) in Hs'. discriminate Hs'.
Qed.

Lemma try_formats_keeps_best (trials : list trial) : forall (seen : list trial) (b : best),
  best_of seen b ->
  (forall t : trial, In t trials -> Forall in_range (readings_of t)) ->
  exists b' : best,
    try_formats b trials = Returned b' /\ best_of (seen ++ trials) b'.
Proof.
  induction trials as [| [f [x rest]] more IH]; intros seen b Hinv Hrange.
  - exists b. split; [reflexivity |]. now rewrite app_nil_r.
  - destruct (try_format_step seen b f x rest Hinv) as (b1 & E1 & Hinv1).
    { apply (Hrange (f, (x, rest))). now left. }
    destruct (IH (seen ++ [(f, (x, rest))]) b1 Hinv1) as (b' & E' & Hinv').
    { intros t Ht. apply Hrange. now right. }
    exists b'. cbn [try_formats]. rewrite E1. cbn [obind].
    split; [exact E' |]. now rewrite <- app_assoc in Hinv'.
Qed.

End FormatChoice.

(** X18. [test_reading_formats] ends with a format that is not
    suspicious and whose readings have the least spread among the formats
    that are not suspicious; it keeps no format, and falls back to MSB/MSB,
    exactly when every format tried looks suspicious. *)
Theorem format_choice (trials : list trial) :
  (forall t : trial, In t trials -> Forall in_range (readings_of t)) ->
  exists b : best,
    try_formats initial_best trials = Returned b /\
    best_of trials b /\
    (best_format b = None <->
     forall t : trial, In t trials -> suspicious (readings_of t) = true) /\
    (best_format b = None -> chosen_format b = (MSB, MSB)) /\
    (forall f : format, best_format b = Some f -> chosen_format b = f).
Proof.
  intros Hrange.
  destruct (try_formats_keeps_best trials [] initial_best) as (b & E & Hinv).
  { split; [reflexivity | intros t []]. }
  { exact Hrange. }
  cbn [app] in Hinv. exists b. split; [exact E |]. split; [exact Hinv |].
  unfold chosen_format. unfold best_of in Hinv.
  destruct (best_format b) as [f |].
  - destruct Hinv as (t & Hin & _ & Hs & _).
    split; [split; [discriminate |] |].
    + intros Hall. rewrite (Hall t Hin) in Hs. discriminate Hs.
    + split; [discriminate | now intros f' [= ->]].
  - destruct Hinv as [_ Hall].
    split; [split; [intros _; exact Hall | reflexivity] |].
    split; [reflexivity | discriminate].
Qed.

Lemma format_choice_witness :
  exists b : best,
    try_formats initial_best
      [((MSB, MSB), (511, [1023; 511; 2047; 511]));
       ((MSB, LSB), (1000, [1040; 990; 1010; 1000]));
       ((LSB, MSB), (5000, [5001; 5003; 5000; 4999]));
       ((LSB, LSB), (-3, [0; -7; -1; 0]))] = Returned b /\
    chosen_format b = (LSB, MSB) /\ best_variance b = Some 4.
Proof.
  destruct (format_choice
      [((MSB, MSB), (511, [1023; 511; 2047; 511]));
       ((MSB, LSB), (1000, [1040; 990; 1010; 1000]));
       ((LSB, MSB), (5000, [5001; 5003; 5000; 4999]));
       ((LSB, LSB), (-3, [0; -7; -1; 0]))]) as (b & E & _).
  { intros t [<- | [<- | [<- | [<- | []]]]];
      repeat constructor; unfold in_range; cbn; lia. }
  exists b. split; [exact E |].
  vm_compute in E. injection E as <-. split; reflexivity.
Defined.
